(** * IFEval-FC: the format checkers of [IFEval_FC/checkers.py] and the text
      primitives of [IFEval_FC/utils.py]

    Python [str] values are modelled as lists of characters whose code points
    lie in U+0000..U+00FF (Rocq's [ascii]); the character tables below
    ([isspace], [lower], ...) are CPython's on that range.  Library calls
    the checkers make ([re], [json], [random]) are embedded next to the code
    that uses them. *)

From Stdlib Require Import Ascii String List Bool Arith ZArith NArith Lia.
From Stdlib Require QArith.
From stdpp Require Import gmap strings.
Import ListNotations.

Local Open Scope bool_scope.
Local Open Scope list_scope.

(** ** Python strings *)

Module PyStr.

Definition str := list ascii.

(** A string literal of the source. *)
Definition py (s : string) : str := list_ascii_of_string s.

Definition code (c : ascii) : N := N_of_ascii c.

Definition in_range (lo hi : N) (c : ascii) : bool :=
  ((lo <=? code c) && (code c <=? hi))%N.

Definition LF : ascii := ascii_of_N 10.
Definition TAB : ascii := ascii_of_N 9.
Definition SP : ascii := ascii_of_N 32.
Definition DQ : ascii := ascii_of_N 34.
Definition BSLASH : ascii := ascii_of_N 92.

(** [str.isspace] on one character; also the separators of [str.split()],
    the characters [str.strip()] removes, and the regex class [\s]. *)
Definition isspace (c : ascii) : bool :=
  in_range 9 13 c || in_range 28 32 c
  || (code c =? 133)%N || (code c =? 160)%N.

(** [str.lower] on one character: A-Z and the Latin-1 capitals. *)
Definition lower_char (c : ascii) : ascii :=
  if in_range 65 90 c || in_range 192 214 c || in_range 216 222 c
  then ascii_of_N (code c + 32) else c.

Definition lower (s : str) : str := map lower_char s.

(** [string.punctuation] *)
Definition punctuation : str :=
  map ascii_of_N
    [33; 34; 35; 36; 37; 38; 39; 40; 41; 42; 43; 44; 45; 46; 47; 58; 59;
     60; 61; 62; 63; 64; 91; 92; 93; 94; 95; 96; 123; 124; 125; 126]%N.

Fixpoint eqb_str (a b : str) : bool :=
  match a, b with
  | [], [] => true
  | c :: a', d :: b' => Ascii.eqb c d && eqb_str a' b'
  | _, _ => false
  end.

Fixpoint startswith (s p : str) {struct p} : bool :=
  match p, s with
  | [], _ => true
  | c :: p', d :: s' => Ascii.eqb c d && startswith s' p'
  | _ :: _, [] => false
  end.

Definition endswith (s p : str) : bool := startswith (rev s) (rev p).

Definition removeprefix (s p : str) : str :=
  if startswith s p then skipn (length p) s else s.

Definition removesuffix (s p : str) : str :=
  if endswith s p && negb (eqb_str p [])
  then firstn (length s - length p) s else s.

(** [sub in s] *)
Fixpoint contains (s sub : str) : bool :=
  startswith s sub
  || match s with
     | [] => false
     | _ :: s' => contains s' sub
     end.

Fixpoint lstrip (s : str) : str :=
  match s with
  | c :: s' => if isspace c then lstrip s' else s
  | [] => []
  end.

Definition rstrip (s : str) : str := rev (lstrip (rev s)).

Definition strip (s : str) : str := rstrip (lstrip s).

(** [s.split()]: split on runs of whitespace, no empty words. *)
Fixpoint split_ws_go (s : str) (cur : str) : list str :=
  match s with
  | [] => match cur with [] => [] | _ => [rev cur] end
  | c :: s' =>
      if isspace c
      then match cur with
           | [] => split_ws_go s' []
           | _ => rev cur :: split_ws_go s' []
           end
      else split_ws_go s' (c :: cur)
  end.

Definition split_ws (s : str) : list str := split_ws_go s [].

(** [s.split(sep)] for a non-empty [sep]: occurrences are taken left to
    right and do not overlap; [skip] counts the characters of the
    separator still to be passed. *)
Fixpoint split_sep_go (sep s : str) (skip : nat) (cur : str) : list str :=
  match s with
  | [] => [rev cur]
  | c :: s' =>
      match skip with
      | S n => split_sep_go sep s' n cur
      | O =>
          if startswith s sep
          then rev cur :: split_sep_go sep s' (length sep - 1) []
          else split_sep_go sep s' 0 (c :: cur)
      end
  end.

(** [None] is the [ValueError] Python raises for an empty separator. *)
Definition split_sep (s sep : str) : option (list str) :=
  match sep with
  | [] => None
  | _ => Some (split_sep_go sep s 0 [])
  end.

(** [sep.join(parts)] *)
Fixpoint join (sep : str) (parts : list str) : str :=
  match parts with
  | [] => []
  | [p] => p
  | p :: ps => p ++ sep ++ join sep ps
  end.

(** [s.replace(old, new)] *)
Fixpoint replace_go (old new s : str) (skip : nat) : str :=
  match s with
  | [] => []
  | c :: s' =>
      match skip with
      | S n => replace_go old new s' n
      | O =>
          if startswith s old
          then new ++ replace_go old new s' (length old - 1)
          else c :: replace_go old new s' 0
      end
  end.

Definition replace (s old new : str) : str :=
  match old with
  | [] => new ++ flat_map (fun c => c :: new) s
  | _ => replace_go old new s 0
  end.

(** [s.count(sub)]: occurrences that do not overlap. *)
Fixpoint count_go (sub s : str) (skip : nat) : nat :=
  match s with
  | [] => 0
  | c :: s' =>
      match skip with
      | S n => count_go sub s' n
      | O =>
          if startswith s sub
          then S (count_go sub s' (length sub - 1))
          else count_go sub s' 0
      end
  end.

Definition count (s sub : str) : nat :=
  match sub with
  | [] => S (length s)
  | _ => count_go sub s 0
  end.

(** [s * n] *)
Definition repeat_str (s : str) (n : Z) : str :=
  concat (repeat s (Z.to_nat n)).

(** [s[a:-b]] for literal [a], [b] >= 0 *)
Definition slice_inner (a b : nat) (s : str) : str :=
  skipn a (firstn (length s - b) s).

(** [x in l] for a list of strings *)
Definition mem (x : str) (l : list str) : bool :=
  existsb (eqb_str x) l.

End PyStr.
Import PyStr.

(** ** Exceptions

    A call returns a value or raises.  [Unmodelled] marks the inputs on
    which the embedding does not follow Python: an argument whose value has
    a type outside the checker's schema, and a postscript marker outside
    [marker_regex]. *)

Inductive exn :=
| KeyError | TypeError | ValueError | SyntaxError | IndexError
| RecursionError | MemoryError | Unmodelled.

Inductive outcome (A : Type) :=
| Ok (a : A)
| Raise (e : exn).
Arguments Ok {A} a.
Arguments Raise {A} e.

Definition exn_eqb (a b : exn) : bool :=
  match a, b with
  | KeyError, KeyError | TypeError, TypeError | ValueError, ValueError
  | SyntaxError, SyntaxError | IndexError, IndexError
  | RecursionError, RecursionError | MemoryError, MemoryError
  | Unmodelled, Unmodelled => true
  | _, _ => false
  end.

(** ** Python's [re]: a backtracking matcher

    The matcher explores alternatives in the order of CPython's engine: the
    left branch of [|] first, one more repetition first for a greedy
    quantifier and one fewer first for a lazy one; the first success is the
    match.  Quantified atoms of the source's patterns are single
    characters, so [Rep] repeats an atom. *)

Module Re.

Record flags := { dotall : bool; multiline : bool }.

Definition NOFLAGS := {| dotall := false; multiline := false |}.
Definition DOTALL := {| dotall := true; multiline := false |}.
Definition MULTILINE := {| dotall := false; multiline := true |}.

Inductive atom :=
| Cls (p : ascii -> bool)   (* a literal character, a class, an escape *)
| Dot.                      (* . *)

Inductive regex :=
| Eps
| One (a : atom)
| Cat (r1 r2 : regex)
| Alt (r1 r2 : regex)
| Opt (r : regex)                           (* r? *)
| Rep (a : atom) (min : nat) (greedy : bool) (* a{min,} and a{min,}? *)
| Grp (n : nat) (r : regex)                  (* the n-th ( ) *)
| Bol                                        (* ^ *)
| Eol.                                       (* $ *)

Definition chr (c : ascii) : regex := One (Cls (Ascii.eqb c)).

Fixpoint lit (s : str) : regex :=
  match s with
  | [] => Eps
  | [c] => chr c
  | c :: s' => Cat (chr c) (lit s')
  end.

Fixpoint seq (rs : list regex) : regex :=
  match rs with
  | [] => Eps
  | [r] => r
  | r :: rs' => Cat r (seq rs')
  end.

Fixpoint alts (rs : list regex) : regex :=
  match rs with
  | [] => Eps
  | [r] => r
  | r :: rs' => Alt r (alts rs')
  end.

Definition star (a : atom) : regex := Rep a 0 true.
Definition star_lazy (a : atom) : regex := Rep a 0 false.
Definition plus (a : atom) : regex := Rep a 1 true.

(** Where the matcher stands: the index in the subject, the character
    before it, the text still ahead, and the groups closed so far. *)
Record mstate := {
  pos : nat;
  prev : option ascii;
  rest : str;
  caps : list (nat * str)
}.

Definition start_state (p : nat) (pv : option ascii) (l : str) : mstate :=
  {| pos := p; prev := pv; rest := l; caps := [] |}.

Definition group (st : mstate) (n : nat) : str :=
  match find (fun e => Nat.eqb (fst e) n) (caps st) with
  | Some e => snd e
  | None => []
  end.

Section Matcher.
Context {R : Type}.
Variable fl : flags.

Definition atom_ok (a : atom) (c : ascii) : bool :=
  match a with
  | Cls p => p c
  | Dot => dotall fl || negb (Ascii.eqb c LF)
  end.

Definition bol_ok (st : mstate) : bool :=
  Nat.eqb (pos st) 0
  || (multiline fl
      && match prev st with Some c => Ascii.eqb c LF | None => false end).

Definition eol_ok (st : mstate) : bool :=
  match rest st with
  | [] => true
  | c :: l => Ascii.eqb c LF
              && (multiline fl || match l with [] => true | _ => false end)
  end.

Fixpoint rep (a : atom) (greedy : bool) (min : nat) (l : str) (p : nat)
    (pv : option ascii) (k : nat -> option ascii -> str -> option R)
    : option R :=
  match l with
  | c :: l' =>
      if greedy
      then
        match (if atom_ok a c
               then rep a greedy (Nat.pred min) l' (S p) (Some c) k
               else None) with
        | Some x => Some x
        | None => match min with O => k p pv l | S _ => None end
        end
      else
        match (match min with O => k p pv l | S _ => None end) with
        | Some x => Some x
        | None =>
            if atom_ok a c
            then rep a greedy (Nat.pred min) l' (S p) (Some c) k
            else None
        end
  | [] => match min with O => k p pv l | S _ => None end
  end.

Fixpoint rm (r : regex) (st : mstate) (k : mstate -> option R)
    : option R :=
  match r with
  | Eps => k st
  | One a =>
      match rest st with
      | c :: l =>
          if atom_ok a c
          then k {| pos := S (pos st); prev := Some c; rest := l;
                    caps := caps st |}
          else None
      | [] => None
      end
  | Cat r1 r2 => rm r1 st (fun st1 => rm r2 st1 k)
  | Alt r1 r2 =>
      match rm r1 st k with
      | Some x => Some x
      | None => rm r2 st k
      end
  | Opt r1 =>
      match rm r1 st k with
      | Some x => Some x
      | None => k st
      end
  | Rep a min greedy =>
      rep a greedy min (rest st) (pos st) (prev st)
        (fun p pv l =>
           k {| pos := p; prev := pv; rest := l; caps := caps st |})
  | Grp n r1 =>
      rm r1 st
        (fun st1 =>
           k {| pos := pos st1; prev := prev st1; rest := rest st1;
                caps := (n, firstn (pos st1 - pos st) (rest st))
                          :: caps st1 |})
  | Bol => if bol_ok st then k st else None
  | Eol => if eol_ok st then k st else None
  end.
End Matcher.

(** One match: the text passed over before it, the matched text, the
    state at its end. *)
Record found := {
  before : str;
  text : str;
  final : mstate
}.

Definition groups (m : found) (n : nat) : str :=
  match n with
  | O => text m
  | _ => group (final m) n
  end.

(** A match at the current index; [must_advance] refuses the empty match
    there (set after an empty match, as CPython does). *)
Definition match_here (fl : flags) (r : regex) (l : str) (p : nat)
    (pv : option ascii) (must_advance : bool) : option mstate :=
  rm fl r (start_state p pv l)
    (fun st1 => if must_advance && Nat.eqb (pos st1) p
                then None else Some st1).

(** [pattern.search]: the leftmost index with a match. *)
Fixpoint search_go (fl : flags) (r : regex) (l : str) (p : nat)
    (pv : option ascii) (must_advance : bool) (skipped : str)
    : option found :=
  match match_here fl r l p pv must_advance with
  | Some st1 =>
      Some {| before := rev skipped; text := firstn (pos st1 - p) l;
              final := st1 |}
  | None =>
      match l with
      | c :: l' => search_go fl r l' (S p) (Some c) false (c :: skipped)
      | [] => None
      end
  end.

(** [pattern.finditer]: the successive matches and the text left after
    the last one.  Every round passes a character or sets [must_advance],
    so [2 * length l + 2] rounds are enough ([finditer_fuel] below). *)
Fixpoint iter_go (fuel : nat) (fl : flags) (r : regex) (l : str) (p : nat)
    (pv : option ascii) (must_advance : bool) : list found * str :=
  match fuel with
  | O => ([], l)
  | S fuel' =>
      match search_go fl r l p pv must_advance [] with
      | None => ([], l)
      | Some m =>
          let st1 := final m in
          let (ms, tail) :=
            iter_go fuel' fl r (rest st1) (pos st1) (prev st1)
              (match text m with [] => true | _ => false end) in
          (m :: ms, tail)
      end
  end.

Definition finditer (fl : flags) (r : regex) (s : str) : list found * str :=
  iter_go (2 * length s + 2) fl r s 0 None false.

(** [re.findall] for a pattern without groups *)
Definition findall (fl : flags) (r : regex) (s : str) : list str :=
  map text (fst (finditer fl r s)).

(** [re.sub]; [repl] computes the replacement from the match. *)
Definition sub (fl : flags) (r : regex) (repl : found -> str) (s : str)
    : str :=
  let (ms, tail) := finditer fl r s in
  flat_map (fun m => before m ++ repl m) ms ++ tail.

(** [pattern.fullmatch] *)
Definition fullmatch (fl : flags) (r : regex) (s : str) : bool :=
  match rm fl r (start_state 0 None s)
          (fun st1 => match rest st1 with [] => Some st1 | _ => None end)
  with
  | Some _ => true
  | None => false
  end.

End Re.

(** ** [IFEval_FC/utils.py] *)

Module Utils.
Import Re.

(** [ComparisonOption = Literal["exactly", "at most", "at least"]] *)
Inductive ComparisonOption := Exactly | AtMost | AtLeast.

Definition option_name (o : ComparisonOption) : str :=
  match o with
  | Exactly => py "exactly"
  | AtMost => py "at most"
  | AtLeast => py "at least"
  end.

Definition option_eqb (a b : ComparisonOption) : bool :=
  eqb_str (option_name a) (option_name b).

Definition COMPARISON_OPTIONS : list ComparisonOption :=
  [Exactly; AtMost; AtLeast].

Definition compare_count (result N : Z) (comparison_option : ComparisonOption)
    : bool :=
  match comparison_option with
  | AtLeast => (N <=? result)%Z
  | AtMost => (result <=? N)%Z
  | Exactly => (result =? N)%Z
  end.

(** [str.maketrans(string.punctuation, " " * len(string.punctuation))]
    applied by [str.translate] *)
Definition translator (c : ascii) : ascii :=
  if existsb (Ascii.eqb c) punctuation then SP else c.

Definition clean_and_split (text : str) (lower_flag : bool) : list str :=
  let cleaned := map translator text in
  if lower_flag then split_ws (lower cleaned) else split_ws cleaned.

(** *** The sentence splitter *)

Definition upper_az (c : ascii) : bool := in_range 65 90 c.
Definition alpha_az (c : ascii) : bool := in_range 65 90 c || in_range 97 122 c.
Definition digit_09 (c : ascii) : bool := in_range 48 57 c.
Definition dot : regex := chr ".".
Definition ws : regex := One (Cls isspace).

Definition _ALPHABETS (n : nat) : regex := Grp n (One (Cls alpha_az)).

Definition _PREFIXES : regex :=
  Cat (Grp 1 (alts (map lit [py "Mr"; py "St"; py "Mrs"; py "Ms"; py "Dr"])))
      dot.

Definition _SUFFIXES (n : nat) : regex :=
  Grp n (alts (map lit [py "Inc"; py "Ltd"; py "Jr"; py "Sr"; py "Co"])).

Definition _STARTERS (n : nat) : regex :=
  Grp n
    (alts
       [lit (py "Mr"); lit (py "Mrs"); lit (py "Ms"); lit (py "Dr");
        lit (py "Prof"); lit (py "Capt"); lit (py "Cpt"); lit (py "Lt");
        Cat (lit (py "He")) ws; Cat (lit (py "She")) ws;
        Cat (lit (py "It")) ws; Cat (lit (py "They")) ws;
        Cat (lit (py "Their")) ws; Cat (lit (py "Our")) ws;
        Cat (lit (py "We")) ws; Cat (lit (py "But")) ws;
        Cat (lit (py "However")) ws; Cat (lit (py "That")) ws;
        Cat (lit (py "This")) ws; lit (py "Wherever")]).

Definition _ACRONYMS (n : nat) : regex :=
  Grp n
    (seq [One (Cls upper_az); dot; One (Cls upper_az); dot;
          Opt (Cat (One (Cls upper_az)) dot)]).

Definition _WEBSITES : regex :=
  Cat dot
      (Grp 1
         (alts (map lit [py "com"; py "net"; py "org"; py "io"; py "gov";
                         py "edu"; py "me"]))).

Definition _DIGITS (n : nat) : regex := Grp n (One (Cls digit_09)).

Definition _MULTIPLE_DOTS : regex := Rep (Cls (Ascii.eqb ".")) 2 true.

Definition PRD : str := py "<prd>".
Definition STOP : str := py "<stop>".

Definition extract_sentences (text : str) : list str :=
  let text := py " " ++ text ++ py "  " in
  let text := replace text [LF] (py " ") in
  let text := sub NOFLAGS _PREFIXES (fun m => groups m 1 ++ PRD) text in
  let text := sub NOFLAGS _WEBSITES (fun m => PRD ++ groups m 1) text in
  let text :=
    sub NOFLAGS (seq [_DIGITS 1; dot; _DIGITS 2])
      (fun m => groups m 1 ++ PRD ++ groups m 2) text in
  let text :=
    sub NOFLAGS _MULTIPLE_DOTS
      (fun m => concat (repeat PRD (length (groups m 0))) ++ STOP) text in
  let text :=
    if contains text (py "Ph.D")
    then replace text (py "Ph.D.") (py "Ph<prd>D<prd>") else text in
  let text :=
    sub NOFLAGS (seq [ws; _ALPHABETS 1; dot; chr " "])
      (fun m => py " " ++ groups m 1 ++ PRD ++ py " ") text in
  let text :=
    sub NOFLAGS (seq [_ACRONYMS 1; chr " "; _STARTERS 2])
      (fun m => groups m 1 ++ STOP ++ py " " ++ groups m 2) text in
  let text :=
    sub NOFLAGS
      (seq [_ALPHABETS 1; dot; _ALPHABETS 2; dot; _ALPHABETS 3; dot])
      (fun m => groups m 1 ++ PRD ++ groups m 2 ++ PRD ++ groups m 3 ++ PRD)
      text in
  let text :=
    sub NOFLAGS (seq [_ALPHABETS 1; dot; _ALPHABETS 2; dot])
      (fun m => groups m 1 ++ PRD ++ groups m 2 ++ PRD) text in
  let text :=
    sub NOFLAGS (seq [chr " "; _SUFFIXES 1; dot; chr " "; _STARTERS 2])
      (fun m => py " " ++ groups m 1 ++ STOP ++ py " " ++ groups m 2)
      text in
  let text :=
    sub NOFLAGS (seq [chr " "; _SUFFIXES 1; dot])
      (fun m => py " " ++ groups m 1 ++ PRD) text in
  let text :=
    sub NOFLAGS (seq [chr " "; _ALPHABETS 1; dot])
      (fun m => py " " ++ groups m 1 ++ PRD) text in
  (* the right double quotation mark U+201D of the next test is not a
     character of the modelled range, so that branch is never taken *)
  let text :=
    if contains text [DQ]
    then replace text ("." :: [DQ])%char (DQ :: py ".") else text in
  let text :=
    if contains text (py "!")
    then replace text ("!" :: [DQ])%char (DQ :: py "!") else text in
  let text :=
    if contains text (py "?")
    then replace text ("?" :: [DQ])%char (DQ :: py "?") else text in
  let text := replace text (py ".") (py ".<stop>") in
  let text := replace text (py "?") (py "?<stop>") in
  let text := replace text (py "!") (py "!<stop>") in
  let text := replace text PRD (py ".") in
  let sentences := split_sep_go STOP text 0 [] in
  let sentences := map strip sentences in
  match last sentences with
  | Some [] => removelast sentences
  | _ => sentences
  end.

(** *** Postscripts *)

Definition is_meta (c : ascii) : bool :=
  existsb (Ascii.eqb c) (py "\^$*+?{}[]()|").

(** The pattern text [marker.lower()] spliced into the third pattern of
    [check_postscript], for a marker made of ordinary characters and
    dots; a marker with another regex metacharacter is not covered. *)
Fixpoint marker_regex (m : str) : option regex :=
  match m with
  | [] => Some Eps
  | c :: m' =>
      if is_meta c then None
      else match marker_regex m' with
           | Some r =>
               Some (Cat (if Ascii.eqb c "." then One Dot else chr c) r)
           | None => None
           end
  end.

(** The first two patterns of [check_postscript]: "\s*p\.\s?p\.\s?s.*$" and
    "\s*p\.\s?s\..*$" *)
Definition PPS_PATTERN : regex :=
  seq [star (Cls isspace); chr "p"; dot; Opt ws; chr "p"; dot; Opt ws;
       chr "s"; star Dot; Eol].
Definition PS_PATTERN : regex :=
  seq [star (Cls isspace); chr "p"; dot; Opt ws; chr "s"; dot; star Dot; Eol].

Definition postscript_pattern (postscript_marker : str) : option regex :=
  if eqb_str postscript_marker (py "P.P.S.") then Some PPS_PATTERN
  else if eqb_str postscript_marker (py "P.S.") then Some PS_PATTERN
  else
    match marker_regex (lower postscript_marker) with
    | Some r => Some (seq [star (Cls isspace); r; star Dot; Eol])
    | None => None
    end.

(** [None]: the marker is outside [marker_regex]. *)
Definition check_postscript (arg_value postscript_marker : str)
    : option bool :=
  let value := lower arg_value in
  match postscript_pattern postscript_marker with
  | Some pattern =>
      let postscript := findall MULTILINE pattern value in
      Some (match postscript with [] => false | _ => true end)
  | None => None
  end.

(** *** Highlighted sections *)

Definition star_c : regex := chr "*".

(** The two patterns of [count_highlighted_sections] *)
Definition DOUBLE_HIGHLIGHT : regex :=
  seq [star_c; star_c; star_lazy Dot; star_c; star_c].
Definition SINGLE_HIGHLIGHT : regex :=
  seq [star_c; star_lazy Dot; star_c].

Definition count_highlighted_sections (arg_value : str) : nat :=
  let double_highlights := findall DOTALL DOUBLE_HIGHLIGHT arg_value in
  let temp_text :=
    fold_left (fun t highlight => replace t highlight []) double_highlights
      arg_value in
  let single_highlights := findall DOTALL SINGLE_HIGHLIGHT temp_text in
  let valid (a b : nat) (highlight : str) : bool :=
    match strip (slice_inner a b highlight) with
    | [] => false
    | _ => true
    end in
  let num_highlights := 0 in
  let num_highlights :=
    num_highlights + length (List.filter (valid 2 2) double_highlights) in
  let num_highlights :=
    num_highlights + length (List.filter (valid 1 1) single_highlights) in
  num_highlights.

(** *** Sampling

    The global generator of [random] is a stream of draws; [_randbelow n]
    takes the next draw modulo [n], so every value below [n] is the
    result for some stream. *)

Record rng := { draws : nat -> nat; cursor : nat }.

Definition Rand (A : Type) : Type := rng -> outcome A * rng.

Definition randbelow (n : nat) : Rand nat :=
  fun g =>
    (Ok (draws g (cursor g) mod n),
     {| draws := draws g; cursor := S (cursor g) |}).

Definition rand_bind {A B} (m : Rand A) (f : A -> Rand B) : Rand B :=
  fun g =>
    match m g with
    | (Ok a, g') => f a g'
    | (Raise e, g') => (Raise e, g')
    end.

Definition rand_ret {A} (a : A) : Rand A := fun g => (Ok a, g).
Definition rand_raise {A} (e : exn) : Rand A := fun g => (Raise e, g).

(** [random.choice(seq)] *)
Definition choice {A} (seq : list A) : Rand A :=
  match seq with
  | [] => rand_raise IndexError
  | _ =>
      rand_bind (randbelow (length seq))
        (fun i =>
           match nth_error seq i with
           | Some x => rand_ret x
           | None => rand_raise IndexError
           end)
  end.

(** [random.randint(a, b)] *)
Definition randint (a b : Z) : Rand Z :=
  if (b <? a)%Z then rand_raise ValueError
  else rand_bind (randbelow (Z.to_nat (b - a + 1)))
         (fun i => rand_ret (a + Z.of_nat i)%Z).

Definition sample_comparison_option
    (ignore_options : option (list ComparisonOption))
    : Rand ComparisonOption :=
  match ignore_options with
  | None => choice COMPARISON_OPTIONS
  | Some ignore_options =>
      let remaining_options :=
        List.filter (fun option => negb (existsb (option_eqb option) ignore_options))
          COMPARISON_OPTIONS in
      choice remaining_options
  end.

Definition END_PHRASES : list str :=
  [py "that's it"; py "end of response"; py "no further information";
   py "this is the end"; py "all done"; py "that's all";
   py "nothing more to add"; py "end of argument"].

Definition sample_end_phrase : Rand str := choice END_PHRASES.

(** The list literal that [EN_WORD_LIST] is built from; some words are
    written more than once. *)
Definition EN_WORD_LITERAL : list str :=
  [
    py "day"; py "night"; py "light"; py "dark"; py "good"; py "bad";
    py "happy"; py "sad"; py "quick"; py "slow"; py "strong"; py "weak";
    py "large"; py "small"; py "early"; py "late"; py "easy"; py "hard";
    py "open"; py "close"; py "high"; py "low"; py "right"; py "left";
    py "young"; py "old"; py "new"; py "old"; py "long"; py "short";
    py "friend"; py "enemy"; py "truth"; py "lie"; py "love"; py "hate";
    py "peace"; py "war"; py "calm"; py "storm"; py "safe"; py "danger";
    py "clear"; py "simple"; py "complex"; py "rather"; py "moderate";
    py "always"; py "never"; py "begin"; py "end"; py "start"; py "finish";
    py "above"; py "below"; py "before"; py "after"; py "first"; py "last";
    py "early"; py "late"; py "fast"; py "slow"; py "hot"; py "cold";
    py "wet"; py "dry"; py "hard"; py "soft"; py "sharp"; py "dull";
    py "thick"; py "thin"; py "deep"; py "shallow"; py "wide"; py "narrow";
    py "short"; py "tall"; py "young"; py "old"; py "rich"; py "poor";
    py "full"; py "empty"; py "clean"; py "dirty"; py "strong"; py "weak";
    py "brave"; py "coward"; py "wise"; py "fool"; py "kind"; py "cruel";
    py "quiet"; py "loud"; py "soft"; py "rough"; py "smooth"; py "bitter";
    py "sweet"; py "fresh"; py "stale"; py "bright"; py "dim"; py "clear";
    py "cloudy"; py "busy"; py "idle"; py "active"; py "lazy"; py "simple";
    py "complex"; py "plain"; py "fancy"; py "safe"; py "risky"; py "public";
    py "private"; py "common"; py "rare"; py "usual"; py "strange";
    py "normal"; py "odd"; py "major"; py "minor"; py "main"; py "side";
    py "central"; py "remote"; py "local"; py "global"; py "urban";
    py "rural"; py "ancient"; py "modern"; py "future"; py "past";
    py "present"; py "final"; py "initial"; py "primary"; py "secondary";
    py "basic"; py "advanced"; py "general"; py "special"; py "specific";
    py "universal"; py "unique"; py "typical"; py "atypical"; py "regular";
    py "irregular"; py "frequent"; py "seldom"; py "constant"; py "variable";
    py "steady"; py "unstable"; py "permanent"; py "temporary"; py "fixed";
    py "flexible"; py "mobile"; py "static"; py "visible"; py "hidden";
    py "obvious"; py "subtle"; py "direct"; py "indirect"; py "straight";
    py "curved"; py "flat"; py "round"; py "square"; py "triangular";
    py "rectangular"; py "circular"; py "oval"; py "solid"; py "liquid";
    py "gas"; py "heavy"; py "lightweight"; py "thick"; py "thin";
    py "broad"; py "narrow"; py "tall"; py "short"; py "deep"; py "shallow";
    py "long"; py "brief"; py "quick"; py "slow"; py "rapid"; py "gradual";
    py "sudden"; py "delayed"; py "early"; py "late"; py "timely";
    py "untimely"; py "open"; py "closed"; py "locked"; py "unlocked";
    py "free"; py "bound"; py "attached"; py "detached"; py "joined";
    py "separate"
  ].

(** [list(set([...]))]: the words without repetition, in the order in which
    the set hands them out. *)
Definition EN_WORD_LIST : list str :=
  elements (list_to_set EN_WORD_LITERAL : gset str).

Definition sample_keyword : Rand str := choice EN_WORD_LIST.

End Utils.
Import Utils.

(** ** [json.loads]

    The decoder of CPython's [json] package ([json/decoder.py],
    [json/scanner.py]) as a recogniser: [Done rest] when a value was read,
    [Bad] for [JSONDecodeError] (a [ValueError]).  The scanner enters one
    level of the interpreter's recursion for every object and array it
    opens; [depth] is the number of levels the interpreter still allows
    when [json.loads] is called ([sys.getrecursionlimit()] less the calls
    in progress), and [Deep] is the [RecursionError] of a text that opens
    one more.  The recursion of the definitions is bounded by [fuel];
    [Fuel] is the answer of a call that ran out of it, which
    [scan_once_enough] below excludes for [json_loads]. *)

Module Json.

Inductive res := Done (rest : str) | Bad | Fuel | Deep.

Definition CR : ascii := ascii_of_N 13.

(** [WHITESPACE_STR = ' \t\n\r'] *)
Definition json_ws (c : ascii) : bool :=
  Ascii.eqb c SP || Ascii.eqb c TAB || Ascii.eqb c LF || Ascii.eqb c CR.

(** [WHITESPACE.match(s, end).end()] *)
Fixpoint skip_ws (s : str) : str :=
  match s with
  | c :: s' => if json_ws c then skip_ws s' else s
  | [] => []
  end.

Definition is_digit (c : ascii) : bool := in_range 48 57 c.

Definition is_hex (c : ascii) : bool :=
  in_range 48 57 c || in_range 65 70 c || in_range 97 102 c.

(** The keys of [BACKSLASH] *)
Definition is_escape (c : ascii) : bool :=
  existsb (Ascii.eqb c) (DQ :: BSLASH :: py "/bfnrt").

(** Where [scanstring] stands inside a string: between characters, after
    a backslash, or inside the four hexadecimal digits of a "\u" escape. *)
Inductive smode := SNormal | SEscape | SHex (k : nat).

(** [scanstring(s, end, strict=True)], from the character after the
    opening quote to the one after the closing quote. *)
Fixpoint scanstring_go (m : smode) (s : str) : option str :=
  match s with
  | [] => None
  | c :: s' =>
      match m with
      | SNormal =>
          if Ascii.eqb c DQ then Some s'
          else if Ascii.eqb c BSLASH then scanstring_go SEscape s'
          else if (code c <? 32)%N then None
          else scanstring_go SNormal s'
      | SEscape =>
          if Ascii.eqb c "u" then scanstring_go (SHex 3) s'
          else if is_escape c then scanstring_go SNormal s'
          else None
      | SHex k =>
          if is_hex c
          then match k with
               | O => scanstring_go SNormal s'
               | S k' => scanstring_go (SHex k') s'
               end
          else None
      end
  end.

Definition scanstring (s : str) : option str := scanstring_go SNormal s.

Fixpoint skip_digits (s : str) : str :=
  match s with
  | c :: s' => if is_digit c then skip_digits s' else s
  | [] => []
  end.

(** [(\.\d+)?] *)
Definition match_frac (s : str) : option str :=
  match s with
  | c :: d :: s' =>
      if Ascii.eqb c "." && is_digit d then Some (skip_digits s') else None
  | _ => None
  end.

(** [([eE][-+]?\d+)?] *)
Definition match_exp (s : str) : option str :=
  match s with
  | e :: s' =>
      if Ascii.eqb e "e" || Ascii.eqb e "E" then
        let s'' :=
          match s' with
          | sg :: t => if Ascii.eqb sg "-" || Ascii.eqb sg "+" then t else s'
          | [] => s'
          end in
        match s'' with
        | d :: s3 => if is_digit d then Some (skip_digits s3) else None
        | [] => None
        end
      else None
  | [] => None
  end.

(** [sys.get_int_max_str_digits()] *)
Definition int_max_str_digits : nat := 4300.

(** [NUMBER_RE.match] after the optional minus sign, followed by the
    conversion of the text: 0 or a run of digits that starts with 1-9, then
    the optional fraction and exponent; the integer conversion raises
    [ValueError] above [int_max_str_digits] digits. *)
Definition match_unsigned (s1 : str) : option res :=
  match s1 with
  | [] => None
  | d :: s2 =>
      if is_digit d then
        let s3 := if Ascii.eqb d "0" then s2 else skip_digits s2 in
        let ndigits := length s1 - length s3 in
        match match_frac s3, match_exp s3 with
        | Some s4, _ =>
            Some (Done (match match_exp s4 with Some s5 => s5 | None => s4 end))
        | None, Some s5 => Some (Done s5)
        | None, None =>
            Some (if int_max_str_digits <? ndigits then Bad else Done s3)
        end
      else None
  end.

Definition match_number (s : str) : option res :=
  match s with
  | c :: s' => if Ascii.eqb c "-" then match_unsigned s' else match_unsigned s
  | [] => None
  end.

Fixpoint scan_once (fuel depth : nat) (s : str) : res :=
  match fuel with
  | O => Fuel
  | S fuel' =>
      match s with
      | [] => Bad
      | nextchar :: s' =>
          if Ascii.eqb nextchar DQ then
            match scanstring s' with Some r => Done r | None => Bad end
          else if Ascii.eqb nextchar "{" then
            match depth with
            | O => Deep
            | S depth' =>
                match skip_ws s' with
                | [] => Bad
                | c :: r =>
                    if Ascii.eqb c "}" then Done r
                    else if Ascii.eqb c DQ then JSONObject fuel' depth' r
                    else Bad
                end
            end
          else if Ascii.eqb nextchar "[" then
            match depth with
            | O => Deep
            | S depth' =>
                match skip_ws s' with
                | [] => Bad
                | c :: r =>
                    if Ascii.eqb c "]" then Done r
                    else JSONArray fuel' depth' (c :: r)
                end
            end
          else if startswith s (py "null") then Done (skipn 4 s)
          else if startswith s (py "true") then Done (skipn 4 s)
          else if startswith s (py "false") then Done (skipn 5 s)
          else
            match match_number s with
            | Some r => r
            | None =>
                if startswith s (py "NaN") then Done (skipn 3 s)
                else if startswith s (py "Infinity") then Done (skipn 8 s)
                else if startswith s (py "-Infinity") then Done (skipn 9 s)
                else Bad
            end
      end
  end

(** The loop of [JSONObject], entered after the opening quote of a key *)
with JSONObject (fuel depth : nat) (s : str) : res :=
  match fuel with
  | O => Fuel
  | S fuel' =>
      match scanstring s with
      | None => Bad
      | Some s1 =>
          match skip_ws s1 with
          | [] => Bad
          | c :: s2 =>
              if Ascii.eqb c ":" then
                match scan_once fuel' depth (skip_ws s2) with
                | Done s3 =>
                    match skip_ws s3 with
                    | [] => Bad
                    | d :: s4 =>
                        if Ascii.eqb d "}" then Done s4
                        else if Ascii.eqb d "," then
                          match skip_ws s4 with
                          | [] => Bad
                          | q :: s5 =>
                              if Ascii.eqb q DQ
                              then JSONObject fuel' depth s5
                              else Bad
                          end
                        else Bad
                    end
                | e => e
                end
              else Bad
          end
      end
  end

(** The loop of [JSONArray], entered at the first character of a value *)
with JSONArray (fuel depth : nat) (s : str) : res :=
  match fuel with
  | O => Fuel
  | S fuel' =>
      match scan_once fuel' depth s with
      | Done s1 =>
          match skip_ws s1 with
          | [] => Bad
          | c :: s2 =>
              if Ascii.eqb c "]" then Done s2
              else if Ascii.eqb c ","
              then JSONArray fuel' depth (skip_ws s2)
              else Bad
          end
      | e => e
      end
  end.

(** [JSONDecoder.decode]: a value between optional whitespace, and
    nothing else. *)
Definition decode (fuel depth : nat) (s : str) : res :=
  match scan_once fuel depth (skip_ws s) with
  | Done r => match skip_ws r with [] => Done [] | _ => Bad end
  | e => e
  end.

(** [json.loads(s)], called with [depth] levels of recursion left: it
    returns the value ([Ok]), or raises [ValueError] or [RecursionError]. *)
Definition json_loads (depth : nat) (s : str) : outcome unit :=
  match decode (2 * length s + 2) depth s with
  | Done _ => Ok tt
  | Bad => Raise ValueError
  | Deep => Raise RecursionError
  | Fuel => Raise Unmodelled
  end.

End Json.

(** ** [IFEval_FC/checkers.py] *)

(** The values a checker keeps under [self.arguments]. *)
Inductive pyval :=
| VInt (n : Z)
| VStr (s : str)
| VBool (b : bool)
| VStrs (l : list str).

(** What [ast.literal_eval] returns, as far as [PythonListFormatChecker]
    looks at it: whether it is a list, and whether each item is a [str]. *)
Inductive item := ItemStr (s : str) | ItemOther.
Inductive literal := LitList (items : list item) | LitOther.

(** The classes of [get_all_checkers]. *)
Inductive checker_class :=
| KeywordsPresenceChecker | KeywordFrequencyChecker | LetterFrequencyChecker
| CyrillicGreekChecker | WordCountChecker | SentenceCountChecker
| PostscriptChecker | PlaceholderCountChecker | SpacesInBetweenChecker
| TitleFormatChecker | HighlightedSectionsCountChecker | JsonFormatChecker
| PythonListFormatChecker | AllUppercaseChecker | AllLowercaseChecker
| NAllCapitalWordsChecker | EndPhraseChecker | QuotationChecker
| NCommasChecker.

(** An instance: its class and the two attributes [sample_state] sets. *)
Record BaseChecker := {
  class_of : checker_class;
  arguments : gmap string pyval;
  description : str
}.

(** A method body: it runs on [self], may assign its attributes, and
    returns or raises. *)
Definition Method (A : Type) : Type := BaseChecker -> outcome A * BaseChecker.

Definition ret {A} (a : A) : Method A := fun self => (Ok a, self).
Definition raise {A} (e : exn) : Method A := fun self => (Raise e, self).
Definition bind {A B} (m : Method A) (f : A -> Method B) : Method B :=
  fun self =>
    match m self with
    | (Ok a, self') => f a self'
    | (Raise e, self') => (Raise e, self')
    end.

Notation "'let*' x ':=' m 'in' k" := (bind m (fun x => k))
  (at level 10, x name, m at level 100, k at level 200, only parsing).

(** [self.arguments[key]]; a missing key is a [KeyError], a value of a
    type outside the checker's schema is [Unmodelled]. *)
Definition subscript (key : string) : Method pyval :=
  fun self =>
    match arguments self !! key with
    | Some v => (Ok v, self)
    | None => (Raise KeyError, self)
    end.

Definition arg_int (key : string) : Method Z :=
  let* v := subscript key in
  match v with VInt n => ret n | _ => raise Unmodelled end.

Definition arg_str (key : string) : Method str :=
  let* v := subscript key in
  match v with VStr s => ret s | _ => raise Unmodelled end.

Definition arg_bool (key : string) : Method bool :=
  let* v := subscript key in
  match v with VBool b => ret b | _ => raise Unmodelled end.

Definition arg_strs (key : string) : Method (list str) :=
  let* v := subscript key in
  match v with VStrs l => ret l | _ => raise Unmodelled end.

Definition arg_option (key : string) : Method ComparisonOption :=
  let* s := arg_str key in
  match List.filter (fun o => eqb_str s (option_name o)) COMPARISON_OPTIONS with
  | o :: _ => ret o
  | [] => raise Unmodelled
  end.

Definition Zlen {A} (l : list A) : Z := Z.of_nat (length l).

Module KeywordsPresenceChecker.
Definition check_following (arg_value : str) : Method bool :=
  let* keywords := arg_strs "list_of_keywords" in
  let* must_include := arg_bool "must_include" in
  let words := clean_and_split arg_value true in
  let keyword_lower := map lower keywords in
  if must_include
  then ret (forallb (fun keyword => mem keyword words) keyword_lower)
  else ret (forallb (fun keyword => negb (mem keyword words)) keyword_lower).
End KeywordsPresenceChecker.

Module KeywordFrequencyChecker.
Definition sample_arguments : Rand (gmap string pyval) :=
  rand_bind sample_keyword
    (fun keyword =>
       rand_bind (sample_comparison_option None)
         (fun comparison_option =>
            rand_bind
              match comparison_option with
              | AtLeast => randint 1 2
              | AtMost => randint 1 2
              | Exactly => randint 1 2
              end
              (fun n_keywords =>
                 rand_ret
                   (<["keyword" := VStr keyword]>
                      (<["N" := VInt n_keywords]>
                         (<["comparison_option" :=
                              VStr (option_name comparison_option)]> ∅)))))).

Definition check_following (arg_value : str) : Method bool :=
  let* keyword := arg_str "keyword" in
  let* N := arg_int "N" in
  let* comparison_option := arg_option "comparison_option" in
  let words := clean_and_split arg_value true in
  let count := Zlen (List.filter (eqb_str (lower keyword)) words) in
  ret (compare_count count N comparison_option).
End KeywordFrequencyChecker.

Module LetterFrequencyChecker.
(** [string.ascii_lowercase] *)
Definition ascii_lowercase : str := py "abcdefghijklmnopqrstuvwxyz".

Definition sample_arguments : Rand (gmap string pyval) :=
  rand_bind (choice ascii_lowercase)
    (fun letter =>
       rand_bind (sample_comparison_option None)
         (fun comparison_option =>
            rand_bind (randint 1 10)
              (fun n_letters =>
                 rand_ret
                   (<["letter" := VStr [letter]]>
                      (<["N" := VInt n_letters]>
                         (<["comparison_option" :=
                              VStr (option_name comparison_option)]> ∅)))))).

Definition check_following (arg_value : str) : Method bool :=
  let* letter := arg_str "letter" in
  let* N := arg_int "N" in
  let* comparison_option := arg_option "comparison_option" in
  let count := Z.of_nat (PyStr.count (lower arg_value) (lower letter)) in
  ret (compare_count count N comparison_option).
End LetterFrequencyChecker.

(** [\w] *)
Definition is_word (c : ascii) : bool :=
  in_range 48 57 c || in_range 65 90 c || (code c =? 95)%N
  || in_range 97 122 c || (code c =? 170)%N || in_range 178 179 c
  || (code c =? 181)%N || in_range 185 186 c || in_range 188 190 c
  || in_range 192 214 c || in_range 216 246 c || in_range 248 255 c.

Module CyrillicGreekChecker.
Import Re.
Definition cyrillic_class (c : ascii) : bool :=
  in_range 1024 1279 c || in_range 1280 1327 c || in_range 11744 11775 c
  || in_range 42560 42655 c || in_range 48 57 c || isspace c
  || negb (is_word c).
Definition greek_class (c : ascii) : bool :=
  in_range 880 1023 c || in_range 7936 8191 c || in_range 48 57 c
  || isspace c || negb (is_word c).

Definition sample_arguments : Rand (gmap string pyval) :=
  rand_bind (choice [py "cyrillic"; py "greek"])
    (fun script => rand_ret (<["script" := VStr script]> ∅)).

Definition check_following (arg_value : str) : Method bool :=
  let* script := arg_str "script" in
  let pattern :=
    if eqb_str script (py "cyrillic")
    then seq [Bol; star (Cls cyrillic_class); Eol]
    else seq [Bol; star (Cls greek_class); Eol] in
  ret (fullmatch NOFLAGS pattern arg_value).
End CyrillicGreekChecker.

Module WordCountChecker.
Import Re.
(** [nltk.tokenize.RegexpTokenizer(r"\w+").tokenize]: [findall] of the
    pattern compiled with [UNICODE | MULTILINE | DOTALL]. *)
Definition tokenize (text : str) : list str :=
  findall {| dotall := true; multiline := true |} (plus (Cls is_word)) text.

Definition sample_arguments : Rand (gmap string pyval) :=
  rand_bind (sample_comparison_option None)
    (fun comparison_option =>
       rand_bind
         match comparison_option with
         | AtLeast => randint 20 40
         | AtMost => randint 2 10
         | Exactly => randint 1 5
         end
         (fun n_words =>
            rand_ret
              (<["N" := VInt n_words]>
                 (<["comparison_option" :=
                      VStr (option_name comparison_option)]> ∅)))).

Definition check_following (arg_value : str) : Method bool :=
  let* N := arg_int "N" in
  let* comparison_option := arg_option "comparison_option" in
  let words := tokenize arg_value in
  ret (compare_count (Zlen words) N comparison_option).
End WordCountChecker.

Module SentenceCountChecker.
Definition sample_arguments : Rand (gmap string pyval) :=
  rand_bind (sample_comparison_option (Some [Exactly]))
    (fun comparison_option =>
       rand_bind
         match comparison_option with
         | AtLeast => randint 1 8
         | AtMost => randint 1 4
         | Exactly => randint 1 5
         end
         (fun n_sentences =>
            rand_ret
              (<["N" := VInt n_sentences]>
                 (<["comparison_option" :=
                      VStr (option_name comparison_option)]> ∅)))).

Definition check_following (arg_value : str) : Method bool :=
  let* N := arg_int "N" in
  let* comparison_option := arg_option "comparison_option" in
  let sentences := extract_sentences arg_value in
  ret (compare_count (Zlen sentences) N comparison_option).
End SentenceCountChecker.

Module PostscriptChecker.
Definition sample_arguments : Rand (gmap string pyval) :=
  rand_bind (choice [py "P.S."; py "P.P.S."])
    (fun marker => rand_ret (<["postscript_marker" := VStr marker]> ∅)).

Definition check_following (arg_value : str) : Method bool :=
  let* marker := arg_str "postscript_marker" in
  match check_postscript arg_value marker with
  | Some b => ret b
  | None => raise Unmodelled
  end.
End PostscriptChecker.

Module PlaceholderCountChecker.
Import Re.
Definition sample_arguments : Rand (gmap string pyval) :=
  rand_bind (sample_comparison_option None)
    (fun comparison_option =>
       rand_bind
         match comparison_option with
         | AtLeast => randint 1 5
         | AtMost => randint 1 2
         | Exactly => randint 3 7
         end
         (fun n_placeholders =>
            rand_ret
              (<["comparison_option" := VStr (option_name comparison_option)]>
                 (<["N" := VInt n_placeholders]> ∅)))).

Definition check_following (arg_value : str) : Method bool :=
  let* comparison_option := arg_option "comparison_option" in
  let* N := arg_int "N" in
  let placeholders :=
    findall NOFLAGS (seq [chr "["; star_lazy Dot; chr "]"]) arg_value in
  let count := Zlen placeholders in
  ret (compare_count count N comparison_option).
End PlaceholderCountChecker.

Module SpacesInBetweenChecker.
Definition sample_arguments : Rand (gmap string pyval) :=
  rand_bind (randint 5 10) (fun N => rand_ret (<["N" := VInt N]> ∅)).

Definition check_following (arg_value : str) : Method bool :=
  let* N := arg_int "N" in
  let SEPARATOR := repeat_str (py " ") N in
  if negb (eqb_str arg_value (strip arg_value)) then ret false
  else if negb (contains arg_value (py " ")) then ret true
  else
    match split_sep arg_value SEPARATOR with
    | None => raise ValueError
    | Some parts =>
        if length parts <? 2 then ret false
        else if existsb (fun part => eqb_str part []) parts then ret false
        else
          let reconstructed := join SEPARATOR parts in
          if negb (eqb_str reconstructed arg_value) then ret false
          else if existsb (fun part => contains part (py " ")) parts
          then ret false
          else ret true
    end.
End SpacesInBetweenChecker.

Module TitleFormatChecker.
Import Re.
Fixpoint lstrip_chr (c : ascii) (s : str) : str :=
  match s with
  | d :: s' => if Ascii.eqb d c then lstrip_chr c s' else s
  | [] => []
  end.
Definition rstrip_chr (c : ascii) (s : str) : str :=
  rev (lstrip_chr c (rev s)).

Definition sample_arguments : Rand (gmap string pyval) := rand_ret ∅.

Definition check_following (arg_value : str) : Method bool :=
  let pattern :=
    seq [chr "<"; chr "<"; plus (Cls (fun c => negb (Ascii.eqb c LF)));
         chr ">"; chr ">"] in
  let titles := findall NOFLAGS pattern arg_value in
  ret (existsb
         (fun title =>
            match strip (rstrip_chr ">" (lstrip_chr "<" title)) with
            | [] => false
            | _ => true
            end)
         titles).
End TitleFormatChecker.

Module HighlightedSectionsCountChecker.
Definition sample_arguments : Rand (gmap string pyval) :=
  rand_bind (sample_comparison_option None)
    (fun comparison_option =>
       rand_bind
         match comparison_option with
         | AtLeast => randint 1 5
         | AtMost => randint 1 2
         | Exactly => randint 3 7
         end
         (fun n_highlighted_sections =>
            rand_ret
              (<["comparison_option" := VStr (option_name comparison_option)]>
                 (<["N" := VInt n_highlighted_sections]> ∅)))).

Definition check_following (arg_value : str) : Method bool :=
  let* comparison_option := arg_option "comparison_option" in
  let* N := arg_int "N" in
  let num_highlights := Z.of_nat (count_highlighted_sections arg_value) in
  ret (compare_count num_highlights N comparison_option).
End HighlightedSectionsCountChecker.

Module JsonFormatChecker.
Definition FENCE : str := py "```".

Definition sample_arguments : Rand (gmap string pyval) := rand_ret ∅.

Definition build_description : Method str :=
  ret (py "The argument value must be a valid JSON object. The JSON must be syntactically correct and parseable.").

Definition fenced_value (arg_value : str) : str :=
  strip
    (removesuffix
       (removeprefix
          (removeprefix
             (removeprefix
                (removeprefix (strip arg_value) (py "```json"))
                (py "```Json"))
             (py "```JSON"))
          FENCE)
       FENCE).

(** [depth] is the recursion that [json.loads] has left, see [Json]. *)
Definition check_following (depth : nat) (arg_value : str) : Method bool :=
  let value := fenced_value arg_value in
  match Json.json_loads depth value with
  | Raise e => if exn_eqb e ValueError then ret false else raise e
  | Ok _ => ret true
  end.
End JsonFormatChecker.

Module PythonListFormatChecker.
Definition FENCE : str := py "```".

Definition sample_arguments : Rand (gmap string pyval) := rand_ret ∅.

Definition fenced_value (arg_value : str) : str :=
  let value := strip arg_value in
  let value :=
    if startswith value (py "```python")
    then strip (skipn (length (py "```python")) value)
    else if startswith value (py "```Python")
    then strip (skipn (length (py "```Python")) value)
    else if startswith value (py "```PYTHON")
    then strip (skipn (length (py "```PYTHON")) value)
    else if startswith value FENCE
    then strip (skipn (length FENCE) value)
    else value in
  if endswith value FENCE
  then strip (firstn (length value - 3) value) else value.

(** [literal_eval] stands for [ast.literal_eval]. *)
Definition check_following (literal_eval : str -> outcome literal)
    (arg_value : str) : Method bool :=
  let value := fenced_value arg_value in
  match literal_eval value with
  | Raise e =>
      if exn_eqb e ValueError || exn_eqb e SyntaxError
      then ret false else raise e
  | Ok parsed =>
      match parsed with
      | LitList items =>
          ret (forallb
                 (fun item =>
                    match item with ItemStr _ => true | _ => false end)
                 items)
      | _ => ret false
      end
  end.
End PythonListFormatChecker.

(** [str.isupper] and [str.islower] of one character *)
Definition isupper_char (c : ascii) : bool :=
  in_range 65 90 c || in_range 192 214 c || in_range 216 222 c.
Definition islower_char (c : ascii) : bool :=
  in_range 97 122 c || (code c =? 170)%N || (code c =? 181)%N
  || (code c =? 186)%N || in_range 223 246 c || in_range 248 255 c.

(** [s.isupper()]: no lowercase character and at least one uppercase. *)
Definition isupper (s : str) : bool :=
  negb (existsb islower_char s) && existsb isupper_char s.
Definition islower (s : str) : bool :=
  negb (existsb isupper_char s) && existsb islower_char s.

Module AllUppercaseChecker.
Definition sample_arguments : Rand (gmap string pyval) := rand_ret ∅.

Definition check_following (arg_value : str) : Method bool :=
  ret (isupper arg_value).
End AllUppercaseChecker.

Module AllLowercaseChecker.
Definition sample_arguments : Rand (gmap string pyval) := rand_ret ∅.

Definition check_following (arg_value : str) : Method bool :=
  ret (islower arg_value).
End AllLowercaseChecker.

Module NAllCapitalWordsChecker.
Definition sample_arguments : Rand (gmap string pyval) :=
  rand_bind (sample_comparison_option None)
    (fun comparison_option =>
       rand_bind
         match comparison_option with
         | AtLeast => randint 1 5
         | AtMost => randint 1 2
         | Exactly => randint 3 7
         end
         (fun n_all_capital_words =>
            rand_ret
              (<["comparison_option" := VStr (option_name comparison_option)]>
                 (<["N" := VInt n_all_capital_words]> ∅)))).

Definition check_following (arg_value : str) : Method bool :=
  let* comparison_option := arg_option "comparison_option" in
  let* N := arg_int "N" in
  let words := clean_and_split arg_value false in
  let all_capital_words := List.filter isupper words in
  let count := Zlen all_capital_words in
  ret (compare_count count N comparison_option).
End NAllCapitalWordsChecker.

Module EndPhraseChecker.
Definition sample_arguments : Rand (gmap string pyval) :=
  rand_bind sample_end_phrase
    (fun end_phrase => rand_ret (<["end_phrase" := VStr end_phrase]> ∅)).

Definition check_following (arg_value : str) : Method bool :=
  let value := lower (strip arg_value) in
  let* end_phrase := arg_str "end_phrase" in
  let end_phrase := lower (strip end_phrase) in
  ret (endswith value end_phrase).
End EndPhraseChecker.

Module QuotationChecker.
Definition sample_arguments : Rand (gmap string pyval) :=
  rand_bind (choice [py "single"; py "double"])
    (fun quotation_type =>
       rand_ret (<["quotation_type" := VStr quotation_type]> ∅)).

Definition check_following (arg_value : str) : Method bool :=
  let* quotation_type := arg_str "quotation_type" in
  let quotation_mark :=
    if eqb_str quotation_type (py "double") then [DQ] else py "'" in
  ret (startswith arg_value quotation_mark
       && endswith arg_value quotation_mark
       && (2 <=? length arg_value)).
End QuotationChecker.

Module NCommasChecker.
Definition sample_arguments : Rand (gmap string pyval) :=
  rand_bind (sample_comparison_option None)
    (fun comparison_option =>
       rand_bind
         match comparison_option with
         | AtLeast => randint 3 7
         | AtMost => randint 1 3
         | Exactly => randint 1 7
         end
         (fun n_commas =>
            rand_ret
              (<["comparison_option" := VStr (option_name comparison_option)]>
                 (<["N" := VInt n_commas]> ∅)))).

Definition check_following (arg_value : str) : Method bool :=
  let count := Z.of_nat (PyStr.count arg_value (py ",")) in
  let* comparison_option := arg_option "comparison_option" in
  let* N := arg_int "N" in
  ret (compare_count count N comparison_option).
End NCommasChecker.

Definition get_all_checkers : list checker_class :=
  [KeywordsPresenceChecker; KeywordFrequencyChecker; LetterFrequencyChecker;
   CyrillicGreekChecker; WordCountChecker; SentenceCountChecker;
   PostscriptChecker; PlaceholderCountChecker; SpacesInBetweenChecker;
   TitleFormatChecker; HighlightedSectionsCountChecker; JsonFormatChecker;
   PythonListFormatChecker; AllUppercaseChecker; AllLowercaseChecker;
   NAllCapitalWordsChecker; EndPhraseChecker; QuotationChecker;
   NCommasChecker].

(** [checker.check_following(arg_value)]: the method of the class of
    [self]; [literal_eval] and [depth] are what the interpreter brings to
    the list-literal and the json check. *)
Definition check_following (literal_eval : str -> outcome literal)
    (depth : nat) (arg_value : str) : Method bool :=
  fun self =>
    match class_of self with
    | KeywordsPresenceChecker =>
        KeywordsPresenceChecker.check_following arg_value self
    | KeywordFrequencyChecker =>
        KeywordFrequencyChecker.check_following arg_value self
    | LetterFrequencyChecker =>
        LetterFrequencyChecker.check_following arg_value self
    | CyrillicGreekChecker =>
        CyrillicGreekChecker.check_following arg_value self
    | WordCountChecker => WordCountChecker.check_following arg_value self
    | SentenceCountChecker =>
        SentenceCountChecker.check_following arg_value self
    | PostscriptChecker => PostscriptChecker.check_following arg_value self
    | PlaceholderCountChecker =>
        PlaceholderCountChecker.check_following arg_value self
    | SpacesInBetweenChecker =>
        SpacesInBetweenChecker.check_following arg_value self
    | TitleFormatChecker => TitleFormatChecker.check_following arg_value self
    | HighlightedSectionsCountChecker =>
        HighlightedSectionsCountChecker.check_following arg_value self
    | JsonFormatChecker =>
        JsonFormatChecker.check_following depth arg_value self
    | PythonListFormatChecker =>
        PythonListFormatChecker.check_following literal_eval arg_value self
    | AllUppercaseChecker =>
        AllUppercaseChecker.check_following arg_value self
    | AllLowercaseChecker =>
        AllLowercaseChecker.check_following arg_value self
    | NAllCapitalWordsChecker =>
        NAllCapitalWordsChecker.check_following arg_value self
    | EndPhraseChecker => EndPhraseChecker.check_following arg_value self
    | QuotationChecker => QuotationChecker.check_following arg_value self
    | NCommasChecker => NCommasChecker.check_following arg_value self
    end.

(** An instance whose attributes were assigned from stored data, as the
    evaluation does: [checker.arguments = {...}]. *)
Definition instance (c : checker_class) (args : list (string * pyval))
    : BaseChecker :=
  {| class_of := c; arguments := list_to_map args; description := [] |}.

Definition count_args (N : Z) (o : ComparisonOption) : list (string * pyval) :=
  [("N", VInt N); ("comparison_option", VStr (option_name o))].

(** ** [evaluate.py]: scoring a response *)

Module Evaluate.

(** A value of the [args] of a tool call: a [str], or a value of another
    type. *)
Inductive argval := ArgStr (s : str) | ArgOther.

(** A [ToolCall]: the keys "id", "name" and "args" *)
Record ToolCall := {
  call_id : str;
  name : str;
  args : gmap string argval
}.

(** The [AIMessage] of the model, as far as [evaluate_response] reads it *)
Record AIMessage := {
  content : str;
  tool_calls : list ToolCall
}.

(** [test_data["format"]]: the key "name", and the optional keys "args"
    and "description" *)
Record FormatInfo := {
  format_name : str;
  format_args : option (gmap string pyval);
  format_description : option str
}.

(** The keys of [test_data] that [evaluate_response] reads:
    [test_data["fn_schema"]["name"]], [test_data["chosen_param"]] and
    [test_data["format"]] *)
Record TestData := {
  fn_schema_name : str;
  chosen_param : string;
  format_info : FormatInfo
}.

(** The result dictionary; [overall_score] is the float 0.0 or 1.0. *)
Record Result := {
  user_query : str;
  expected_function : str;
  result_chosen_param : string;
  result_format_name : str;
  llm_response : AIMessage;
  function_called : bool;
  parameter_provided : bool;
  format_correct : bool;
  overall_score : Z
}.

(** [cls.__name__] *)
Definition class_name (cls : checker_class) : str :=
  match cls with
  | KeywordsPresenceChecker => py "KeywordsPresenceChecker"
  | KeywordFrequencyChecker => py "KeywordFrequencyChecker"
  | LetterFrequencyChecker => py "LetterFrequencyChecker"
  | CyrillicGreekChecker => py "CyrillicGreekChecker"
  | WordCountChecker => py "WordCountChecker"
  | SentenceCountChecker => py "SentenceCountChecker"
  | PostscriptChecker => py "PostscriptChecker"
  | PlaceholderCountChecker => py "PlaceholderCountChecker"
  | SpacesInBetweenChecker => py "SpacesInBetweenChecker"
  | TitleFormatChecker => py "TitleFormatChecker"
  | HighlightedSectionsCountChecker => py "HighlightedSectionsCountChecker"
  | JsonFormatChecker => py "JsonFormatChecker"
  | PythonListFormatChecker => py "PythonListFormatChecker"
  | AllUppercaseChecker => py "AllUppercaseChecker"
  | AllLowercaseChecker => py "AllLowercaseChecker"
  | NAllCapitalWordsChecker => py "NAllCapitalWordsChecker"
  | EndPhraseChecker => py "EndPhraseChecker"
  | QuotationChecker => py "QuotationChecker"
  | NCommasChecker => py "NCommasChecker"
  end.

(** [self.checker_classes = {cls.__name__: cls for cls in get_all_checkers()}] *)
Definition checker_classes : gmap str checker_class :=
  list_to_map (map (fun cls => (class_name cls, cls)) get_all_checkers).

(** The first loop of [evaluate_response]: whether every tool call has the
    chosen parameter. *)
Fixpoint every_call_provides (chosen_param : string)
    (tool_calls : list ToolCall) : bool :=
  match tool_calls with
  | [] => true
  | tool_call :: rest =>
      let parameters := args tool_call in
      match parameters !! chosen_param with
      | None => false
      | Some _ => every_call_provides chosen_param rest
      end
  end.

(** The second loop: [Ok false] where the code returns with
    [format_correct] left false, [Ok true] when the loop ends.  The
    constructor [checker_class()] samples a state that the two assignments
    after it replace.  [except Exception] catches every exception of the
    checker; a check outside the embedding stays [Unmodelled]. *)
Fixpoint every_format_correct (literal_eval : str -> outcome literal)
    (depth : nat) (format_info : FormatInfo) (chosen_param : string)
    (tool_calls : list ToolCall) : outcome bool :=
  match tool_calls with
  | [] => Ok true
  | tool_call :: rest =>
      let parameters := args tool_call in
      match parameters !! chosen_param with
      | None => Raise KeyError
      | Some (ArgStr param_value) =>
          match checker_classes !! format_name format_info with
          | Some checker_class =>
              let checker :=
                {| class_of := checker_class;
                   arguments := default ∅ (format_args format_info);
                   description := default [] (format_description format_info)
                |} in
              match fst (check_following literal_eval depth param_value
                           checker) with
              | Ok format_correct =>
                  if format_correct
                  then every_format_correct literal_eval depth format_info
                         chosen_param rest
                  else Ok false
              | Raise Unmodelled => Raise Unmodelled
              | Raise _ => Ok false
              end
          | None => Ok false
          end
      | Some ArgOther => Ok false
      end
  end.

Definition evaluate_response (literal_eval : str -> outcome literal)
    (depth : nat) (test_data : TestData) (user_query : str)
    (response : AIMessage) : outcome Result :=
  let expected_function := fn_schema_name test_data in
  let chosen_param := chosen_param test_data in
  let format_info := format_info test_data in
  let format_name := format_name format_info in
  let tool_calls := tool_calls response in
  let result (function_called parameter_provided format_correct : bool)
      (overall_score : Z) : Result :=
    {| user_query := user_query;
       expected_function := expected_function;
       result_chosen_param := chosen_param;
       result_format_name := format_name;
       llm_response := response;
       function_called := function_called;
       parameter_provided := parameter_provided;
       format_correct := format_correct;
       overall_score := overall_score |} in
  match tool_calls with
  | [] => Ok (result false false false 0%Z)
  | _ =>
      if negb (every_call_provides chosen_param tool_calls)
      then Ok (result true false false 0%Z)
      else
        match every_format_correct literal_eval depth format_info
                chosen_param tool_calls with
        | Raise e => Raise e
        | Ok false => Ok (result true true false 0%Z)
        | Ok true =>
            let function_called := true in
            let parameter_provided := true in
            let format_correct := true in
            if function_called && parameter_provided && format_correct
            then Ok (result true true true 1%Z)
            else Ok (result true true true 0%Z)
        end
  end.

(** [count / total_queries]: the quotient that Python rounds to a float *)
Definition rate (count total_queries : nat) : QArith_base.Q :=
  QArith_base.Qmake (Z.of_nat count) (Pos.of_nat total_queries).

(** The summary dictionary *)
Record Summary := {
  total_queries : nat;
  function_called_rate : QArith_base.Q;
  parameter_provided_rate : QArith_base.Q;
  format_correct_rate : QArith_base.Q;
  function_called_count : nat;
  parameter_provided_count : nat;
  format_correct_count : nat
}.

(** [None] is the dictionary with the key "error". *)
Definition calculate_summary_stats (results : list Result) : option Summary :=
  match results with
  | [] => None
  | _ =>
      let total_queries := length results in
      let function_called_count :=
        length (List.filter function_called results) in
      let parameter_provided_count :=
        length (List.filter parameter_provided results) in
      let format_correct_count :=
        length (List.filter format_correct results) in
      Some {| total_queries := total_queries;
              function_called_rate := rate function_called_count total_queries;
              parameter_provided_rate :=
                rate parameter_provided_count total_queries;
              format_correct_rate := rate format_correct_count total_queries;
              function_called_count := function_called_count;
              parameter_provided_count := parameter_provided_count;
              format_correct_count := format_correct_count |}
  end.

(** [os.path.join(a, b)] of [posixpath] *)
Definition path_join (a b : str) : str :=
  if startswith b (py "/") then b
  else if eqb_str a [] || endswith a (py "/") then a ++ b
  else a ++ py "/" ++ b.

(** [main], when no output file is given: the value of [args.output] for
    the time stamp [now] ("%Y%m%d_%H%M%S"), the provider and
    [str(model_name)]. *)
Definition default_output (now provider model_name : str) : str :=
  let model_name_safe :=
    replace (replace model_name (py "/") (py "_")) (py " ") (py "_") in
  let results_dir := py "results" in
  path_join results_dir
    (now ++ py "_" ++ provider ++ py "_" ++ model_name_safe ++ py ".json").

End Evaluate.

(** ** [scripts/view_results.py] *)

Module ViewResults.

(** The text of [p] before the first [c] *)
Fixpoint until (c : ascii) (p : str) : str :=
  match p with
  | [] => []
  | d :: p' => if Ascii.eqb d c then [] else d :: until c p'
  end.

(** [os.path.basename(p)] of [posixpath]: the text after the last "/" *)
Definition basename (p : str) : str := rev (until "/" (rev p)).

(** The result is the pair [(provider, model)]. *)
Definition extract_provider_model (filepath : str) : str * str :=
  let fname := basename filepath in
  let parts := split_sep_go (py "_") fname 0 [] in
  if length parts <? 4 then (py "unknown", py "unknown")
  else
    let provider := nth 2 parts [] in
    let model :=
      let joined := join (py "_") (skipn 3 parts) in
      firstn (length joined - 5) joined in
    (provider, model).

End ViewResults.

(** ** Inputs of the properties *)

(** "a", [n] spaces, "b" *)
Definition spaced (n : nat) : str := py "a" ++ repeat SP n ++ py "b".

Definition is_punct (c : ascii) : bool := existsb (Ascii.eqb c) punctuation.

(** A keyword: a non-empty word of lowercase letters, the characters
    with [isalpha()] and [islower()]. *)
Definition keyword_word (k : str) : Prop :=
  k <> [] /\ Forall (fun c => islower_char c = true) k.

(** The arguments [{list_of_keywords: [k], must_include: True}] *)
Definition keyword_args (k : str) (self : BaseChecker) : Prop :=
  arguments self !! "list_of_keywords" = Some (VStrs [k])
  /\ arguments self !! "must_include" = Some (VBool true).

(** The instance with [{list_of_keywords: [k], must_include: True}] *)
Definition keyword_self (k : str) : BaseChecker :=
  instance KeywordsPresenceChecker
    [("list_of_keywords", VStrs [k]); ("must_include", VBool true)].


(** [ast.literal_eval] of CPython 3.11 on the texts used in the examples:
    "{[1]: 2}" is a dict display with a list as key, and building the dict
    raises [TypeError] (unhashable type: 'list'); "['a', 'b']" is a list of
    two strings; "[1" is a [SyntaxError].  The sample gives [SyntaxError]
    for every other text and says nothing about them. *)
Definition literal_eval_sample (text : str) : outcome literal :=
  if eqb_str text (py "{[1]: 2}") then Raise TypeError
  else if eqb_str text (py "['a', 'b']")
  then Ok (LitList [ItemStr (py "a"); ItemStr (py "b")])
  else Raise SyntaxError.

(** ** What a pattern matches

    [Matches fl r st st']: the pattern [r] can take the matcher from [st]
    to [st'].  The matcher [Re.rm] finds a way through the pattern exactly
    when there is one ([rm_none] below). *)

Module ReSpec.
Import Re.

(** The character before the index once [w] has been passed *)
Definition last_or (w : str) (pv : option ascii) : option ascii :=
  match rev w with
  | c :: _ => Some c
  | [] => pv
  end.

(** The state after the characters [w], with [l] still ahead *)
Definition after (st : mstate) (w l : str) : mstate :=
  {| pos := pos st + length w; prev := last_or w (prev st); rest := l;
     caps := caps st |}.

Fixpoint Matches (fl : flags) (r : regex) (st st' : mstate) : Prop :=
  match r with
  | Eps => st' = st
  | One a =>
      exists c l, rest st = c :: l /\ atom_ok fl a c = true
                  /\ st' = after st [c] l
  | Cat r1 r2 => exists mid, Matches fl r1 st mid /\ Matches fl r2 mid st'
  | Alt r1 r2 => Matches fl r1 st st' \/ Matches fl r2 st st'
  | Opt r1 => Matches fl r1 st st' \/ st' = st
  | Rep a min _ =>
      exists w l, rest st = w ++ l /\ forallb (atom_ok fl a) w = true
                  /\ min <= length w /\ st' = after st w l
  | Grp n r1 =>
      exists st1, Matches fl r1 st st1
                  /\ st' = {| pos := pos st1; prev := prev st1;
                              rest := rest st1;
                              caps := (n, firstn (pos st1 - pos st) (rest st))
                                        :: caps st1 |}
  | Bol => bol_ok fl st = true /\ st' = st
  | Eol => eol_ok fl st = true /\ st' = st
  end.

(** The pattern matches somewhere in [s]: after [l1], on a prefix of [l2]. *)
Definition matches_in (fl : flags) (r : regex) (s : str) : Prop :=
  exists l1 l2 st',
    s = l1 ++ l2
    /\ Matches fl r (start_state (length l1) (last_or l1 None) l2) st'.

End ReSpec.

(** The text up to the first line feed, and the rest *)
Fixpoint line_of (s : str) : str * str :=
  match s with
  | [] => ([], [])
  | c :: s' =>
      if Ascii.eqb c LF then ([], s)
      else let (a, b) := line_of s' in (c :: a, b)
  end.

(** The marker "P.S." occurs in the lower-cased text [s]: "p.", at most one
    whitespace character, "s." *)
Definition has_ps_marker (s : str) : Prop :=
  exists pre w post,
    s = pre ++ py "p." ++ w ++ py "s." ++ post
    /\ (w = [] \/ exists c, w = [c] /\ isspace c = true).

(** The marker "P.P.S." occurs in the lower-cased text [s]: "p.", "p." and
    "s", with at most one whitespace character before the second and the
    third letter *)
Definition has_pps_marker (s : str) : Prop :=
  exists pre w1 w2 post,
    s = pre ++ py "p." ++ w1 ++ py "p." ++ w2 ++ py "s" ++ post
    /\ (w1 = [] \/ exists c, w1 = [c] /\ isspace c = true)
    /\ (w2 = [] \/ exists c, w2 = [c] /\ isspace c = true).

(** The instances with [{postscript_marker: "P.S."}] and
    [{postscript_marker: "P.P.S."}] *)
Definition ps_self : BaseChecker :=
  instance PostscriptChecker [("postscript_marker", VStr (py "P.S."))].
Definition pps_self : BaseChecker :=
  instance PostscriptChecker [("postscript_marker", VStr (py "P.P.S."))].

(** A postscript on the first of two lines *)
Definition two_lines : str := py "P.S. note" ++ [LF] ++ py "more text".

(** A character that can end a JSON value: no whitespace and no backquote *)
Definition closes (c : ascii) : bool :=
  negb (isspace c) && negb (Ascii.eqb c "`").

(** [r] moved in front of the text [t] *)
Definition res_app (t : str) (r : Json.res) : Json.res :=
  match r with
  | Json.Done rest => Json.Done (rest ++ t)
  | other => other
  end.

(** The text [v] ends with a digit. *)
Definition ends_with_digit (v : str) : Prop :=
  exists v' c, v = v' ++ [c] /\ Json.is_digit c = true.

(** The instance of the json-validity checker, which has no arguments *)
Definition json_self : BaseChecker := instance JsonFormatChecker [].

(** A body between code-fence markers: three backquotes, the tag, the
    body with whitespace around it, three backquotes *)
Definition fenced (tag ws1 body ws2 : str) : str :=
  JsonFormatChecker.FENCE ++ tag ++ ws1 ++ body ++ ws2
  ++ JsonFormatChecker.FENCE.

(** The tags that [JsonFormatChecker.check_following] removes *)
Definition JSON_TAGS : list str := [py "json"; py "Json"; py "JSON"].

(** An object without its closing brace: the characters { "a" : 1 *)
Definition truncated_json : str := py "{" ++ [DQ] ++ py "a" ++ [DQ] ++ py ":1".

(** The object { "a" : 1 } *)
Definition object_a1 : str := truncated_json ++ py "}".

(** The string literal "abc" with its quotes *)
Definition quoted_abc : str := [DQ] ++ py "abc" ++ [DQ].

(** [sys.getrecursionlimit()] of an interpreter started with its defaults:
    no call has more levels of recursion left. *)
Definition default_recursion_limit : nat := 1000.

(** [n] opening and [n] closing brackets: an empty array inside [n - 1]
    arrays *)
Definition nested_arrays (n : nat) : str := repeat "["%char n ++ repeat "]"%char n.

(** The array of one integer, written with 4301 digits *)
Definition long_integer_array : str := py "[" ++ repeat "1"%char 4301 ++ py "]".


(** * Properties *)

Section Highlights.
Import Re.

(** C1: on "*a*b* *c*" there is no double-delimited span, the single
    asterisks are paired left to right into "*a*" and "* *" (the last
    asterisk stays unpaired), only the first span has content, so
    [count_highlighted_sections] returns exactly 1; the highlight-count
    check therefore holds for "exactly 1" and fails for "exactly 2". *)
Theorem C1_highlights_pair_left_to_right :
  let text := py "*a*b* *c*" in
  findall DOTALL DOUBLE_HIGHLIGHT text = []
  /\ findall DOTALL SINGLE_HIGHLIGHT text = [py "*a*"; py "* *"]
  /\ count_highlighted_sections text = 1
  /\ (let self := instance HighlightedSectionsCountChecker (count_args 1 Exactly) in
      HighlightedSectionsCountChecker.check_following text self
      = (Ok true, self))
  /\ (let self := instance HighlightedSectionsCountChecker (count_args 2 Exactly) in
      HighlightedSectionsCountChecker.check_following text self
      = (Ok false, self)).
Proof.
  cbv zeta. repeat split; vm_compute; reflexivity.
Qed.
End Highlights.

Section Sentences.

(** C2: with N = 2 and "at least", the sentence-count check holds on
    "Hello. World. Again." (three sentences) and fails on "Hello." (one
    sentence: the empty fragment after the final full stop is dropped). *)
Theorem C2_sentence_count_at_least_two :
  let self := instance SentenceCountChecker (count_args 2 AtLeast) in
  extract_sentences (py "Hello. World. Again.")
  = [py "Hello."; py "World."; py "Again."]
  /\ extract_sentences (py "Hello.") = [py "Hello."]
  /\ SentenceCountChecker.check_following (py "Hello. World. Again.") self
     = (Ok true, self)
  /\ SentenceCountChecker.check_following (py "Hello.") self
     = (Ok false, self).
Proof.
  cbv zeta. repeat split; vm_compute; reflexivity.
Qed.
End Sentences.

Section Spacing.


Lemma contains_space_false (s : str) :
  ~ In SP s -> contains s (py " ") = false.
Proof.
  induction s as [|c s IH]; intros Hn; [reflexivity|].
  cbn [contains]. rewrite IH by (intros H; apply Hn; right; exact H).
  rewrite orb_false_r.
  change (startswith (c :: s) (py " ")) with (Ascii.eqb " " c && true).
  destruct (Ascii.eqb_spec " "%char c) as [<-|]; [|reflexivity].
  exfalso. apply Hn. left. reflexivity.
Qed.

Lemma eqb_str_refl (s : str) : eqb_str s s = true.
Proof.
  induction s as [|c s IH]; [reflexivity|].
  cbn. rewrite Ascii.eqb_refl. exact IH.
Qed.

Lemma eqb_str_eq (a b : str) : eqb_str a b = true <-> a = b.
Proof.
  split; [|intros ->; apply eqb_str_refl].
  revert b. induction a as [|c a IH]; intros [|d b] H; try discriminate.
  - reflexivity.
  - cbn in H. apply andb_true_iff in H as [H1 H2].
    apply Ascii.eqb_eq in H1. subst. f_equal. apply IH. exact H2.
Qed.

(** C3: with N = 5 the spacing check holds for "a", five spaces, "b",
    fails with four and with six spaces; and for every N a string without
    any space character that equals its own [strip()] passes. *)
Theorem C3_spaces_in_between :
  (let self := instance SpacesInBetweenChecker [("N", VInt 5)] in
   SpacesInBetweenChecker.check_following (spaced 5) self = (Ok true, self)
   /\ SpacesInBetweenChecker.check_following (spaced 4) self
      = (Ok false, self)
   /\ SpacesInBetweenChecker.check_following (spaced 6) self
      = (Ok false, self))
  /\ (forall (N : Z) (self : BaseChecker) (arg_value : str),
        arguments self !! "N" = Some (VInt N) ->
        ~ In SP arg_value ->
        strip arg_value = arg_value ->
        SpacesInBetweenChecker.check_following arg_value self
        = (Ok true, self)).
Proof.
  split.
  - cbv zeta. repeat split; vm_compute; reflexivity.
  - intros N self arg_value HN Hsp Hstrip.
    unfold SpacesInBetweenChecker.check_following, arg_int, subscript, bind.
    rewrite HN. cbn. rewrite Hstrip, eqb_str_refl. cbn.
    rewrite contains_space_false by exact Hsp. reflexivity.
Qed.

Lemma C3_spaces_in_between_witness :
  SpacesInBetweenChecker.check_following (py "word")
    (instance SpacesInBetweenChecker [("N", VInt 7)])
  = (Ok true, instance SpacesInBetweenChecker [("N", VInt 7)]).
Proof.
  apply (proj2 C3_spaces_in_between 7%Z).
  - vm_compute. reflexivity.
  - vm_compute. intros H. repeat (destruct H as [H|H]; [discriminate H|]).
    exact H.
  - vm_compute. reflexivity.
Defined.
End Spacing.

Section Sampling.

Lemma remaining_without_exactly :
  List.filter (fun option => negb (existsb (option_eqb option) [Exactly]))
    COMPARISON_OPTIONS
  = [AtMost; AtLeast].
Proof. vm_compute. reflexivity. Qed.

Lemma sample_comparison_option_not_exactly (g : rng) :
  exists o g',
    sample_comparison_option (Some [Exactly]) g = (Ok o, g')
    /\ (o = AtMost \/ o = AtLeast).
Proof.
  unfold sample_comparison_option. rewrite remaining_without_exactly.
  unfold choice, rand_bind, randbelow. cbn [length].
  pose proof (Nat.mod_upper_bound (draws g (cursor g)) 2 ltac:(discriminate))
    as Hlt.
  destruct (draws g (cursor g) mod 2) as [|[|n]]; cbn.
  - eexists _, _. split; [reflexivity|]. left. reflexivity.
  - eexists _, _. split; [reflexivity|]. right. reflexivity.
  - lia.
Qed.

(** C8: whatever the generator draws, [sample_arguments] of the
    sentence-count checker returns a parameter set whose
    [comparison_option] is "at least" or "at most", never "exactly". *)
Theorem C8_sentence_count_never_samples_exactly :
  forall g : rng,
  exists (args : gmap string pyval) (g' : rng),
    SentenceCountChecker.sample_arguments g = (Ok args, g')
    /\ (args !! "comparison_option" = Some (VStr (py "at least"))
        \/ args !! "comparison_option" = Some (VStr (py "at most")))
    /\ args !! "comparison_option" <> Some (VStr (py "exactly")).
Proof.
  intros g. unfold SentenceCountChecker.sample_arguments.
  destruct (sample_comparison_option_not_exactly g) as (o & g1 & Ho & Hcase).
  unfold rand_bind at 1. rewrite Ho.
  destruct Hcase as [-> | ->].
  - unfold rand_bind, randint, rand_ret, randbelow. cbn.
    eexists _, _. split; [reflexivity|].
    rewrite lookup_insert_ne by discriminate.
    rewrite lookup_insert_eq. split; [right; reflexivity | discriminate].
  - unfold rand_bind, randint, rand_ret, randbelow. cbn.
    eexists _, _. split; [reflexivity|].
    rewrite lookup_insert_ne by discriminate.
    rewrite lookup_insert_eq. split; [left; reflexivity | discriminate].
Qed.
End Sampling.

Section Keywords.


Ltac by_cases_on c :=
  destruct c as [[] [] [] [] [] [] [] []]; vm_compute;
  repeat split; intros; congruence.

Lemma lower_letter_facts (c : ascii) :
  islower_char c = true ->
  translator c = c /\ lower_char c = c /\ isspace c = false.
Proof. by_cases_on c. Qed.

Lemma lower_char_space (c : ascii) : isspace (lower_char c) = isspace c.
Proof. by_cases_on c. Qed.

Lemma translator_not_punct (c : ascii) : is_punct c = false -> translator c = c.
Proof. by_cases_on c. Qed.

Lemma translator_punct (c : ascii) : is_punct c = true -> translator c = SP.
Proof. by_cases_on c. Qed.

Lemma lower_translator_variant (c : ascii) :
  islower_char (lower_char c) = true -> translator c = c.
Proof. by_cases_on c. Qed.

Lemma keyword_clean (k : str) :
  Forall (fun c => islower_char c = true) k ->
  map translator k = k /\ lower k = k
  /\ Forall (fun c => isspace c = false) k.
Proof.
  induction 1 as [|c k Hc _ (IH1 & IH2 & IH3)]; [repeat split; constructor|].
  destruct (lower_letter_facts c Hc) as (H1 & H2 & H3).
  unfold lower in *. cbn. rewrite H1, H2, IH1, IH2.
  repeat split. constructor; assumption.
Qed.

(** [split()] over a run without whitespace, a run of whitespace, and the
    end of the text *)
Lemma split_ws_go_word (w s cur : str) :
  Forall (fun c => isspace c = false) w ->
  split_ws_go (w ++ s) cur = split_ws_go s (rev w ++ cur).
Proof.
  intros Hw. revert cur.
  induction Hw as [|c w Hc _ IH]; intros cur; [reflexivity|].
  cbn. rewrite Hc, IH. rewrite <- app_assoc. reflexivity.
Qed.

Lemma split_ws_go_spaces (sp s : str) :
  Forall (fun c => isspace c = true) sp ->
  split_ws_go (sp ++ s) [] = split_ws_go s [].
Proof.
  induction 1 as [|c sp Hc _ IH]; [reflexivity|].
  cbn. rewrite Hc. exact IH.
Qed.

Lemma split_ws_go_end (sp cur : str) :
  Forall (fun c => isspace c = true) sp -> cur <> [] ->
  split_ws_go sp cur = [rev cur].
Proof.
  intros Hsp Hcur. destruct Hsp as [|c sp Hc Hsp].
  - cbn. destruct cur; [contradiction|reflexivity].
  - cbn. rewrite Hc. destruct cur; [contradiction|].
    rewrite <- (app_nil_r sp), split_ws_go_spaces by exact Hsp.
    reflexivity.
Qed.

Lemma split_ws_single (sp1 w sp2 : str) :
  Forall (fun c => isspace c = true) sp1 ->
  Forall (fun c => isspace c = false) w -> w <> [] ->
  Forall (fun c => isspace c = true) sp2 ->
  split_ws (sp1 ++ w ++ sp2) = [w].
Proof.
  intros H1 Hw Hne H2. unfold split_ws.
  rewrite split_ws_go_spaces by exact H1.
  rewrite split_ws_go_word by exact Hw.
  rewrite split_ws_go_end; [|exact H2|].
  - rewrite app_nil_r, rev_involutive. reflexivity.
  - rewrite app_nil_r. intros E. apply Hne.
    rewrite <- (rev_involutive w), E. reflexivity.
Qed.

Lemma eqb_str_app_false (k s : str) : s <> [] -> eqb_str k (k ++ s) = false.
Proof.
  intros Hs. destruct (eqb_str k (k ++ s)) eqn:E; [|reflexivity].
  apply eqb_str_eq in E. exfalso. apply Hs.
  apply (app_inv_head k). rewrite app_nil_r. symmetry. exact E.
Qed.

Lemma keywords_check_eq (k arg_value : str) (self : BaseChecker) :
  keyword_args k self ->
  KeywordsPresenceChecker.check_following arg_value self
  = (Ok (mem (lower k) (clean_and_split arg_value true) && true), self).
Proof.
  intros [Hk Hm].
  unfold KeywordsPresenceChecker.check_following, arg_strs, arg_bool,
    subscript, bind.
  rewrite Hk. cbn. rewrite Hm. reflexivity.
Qed.
End Keywords.

Section KeywordsWholeWord.

Lemma keyword_self_args (k : str) : keyword_args k (keyword_self k).
Proof. split; reflexivity. Qed.

Lemma clean_and_split_single (sp1 w sp2 : str) :
  Forall (fun c => isspace c = true) sp1 ->
  Forall (fun c => isspace c = false) w -> w <> [] ->
  Forall (fun c => isspace c = true) sp2 ->
  split_ws (sp1 ++ w ++ sp2) = [w] /\ mem w [w] && true = true.
Proof.
  intros H1 Hw Hne H2. split; [apply split_ws_single; assumption|].
  cbn. rewrite eqb_str_refl. reflexivity.
Qed.

(** C4: keyword matching is whole-word, never substring.  For a keyword
    [k] (a non-empty word of lowercase letters) and the arguments
    [{list_of_keywords: [k], must_include: True}], the presence check
    returns false on [k] followed by a non-empty suffix of characters that
    are neither separators of words (the space and the other whitespace
    characters) nor punctuation, and true on [k] alone, on [k] between
    punctuation characters, and on every case variant of [k]. *)
Theorem C4_keyword_whole_word :
  forall (k : str) (self : BaseChecker),
    keyword_word k -> keyword_args k self ->
    (forall suffix,
        suffix <> [] ->
        Forall (fun c => isspace c = false /\ is_punct c = false) suffix ->
        KeywordsPresenceChecker.check_following (k ++ suffix) self
        = (Ok false, self))
    /\ KeywordsPresenceChecker.check_following k self = (Ok true, self)
    /\ (forall p1 p2,
          Forall (fun c => is_punct c = true) p1 ->
          Forall (fun c => is_punct c = true) p2 ->
          KeywordsPresenceChecker.check_following (p1 ++ k ++ p2) self
          = (Ok true, self))
    /\ (forall variant,
          lower variant = k ->
          KeywordsPresenceChecker.check_following variant self
          = (Ok true, self)).
Proof.
  intros k self [Hne Hk] Hargs.
  destruct (keyword_clean k Hk) as (Htr & Hlow & Hns).
  assert (Hsp0 : Forall (fun c => isspace c = true) []) by constructor.
  repeat split.
  - intros suffix Hsuf Hall.
    rewrite (keywords_check_eq k _ self Hargs), Hlow.
    unfold clean_and_split.
    assert (Hclean : lower (map translator (k ++ suffix)) = k ++ lower suffix).
    { unfold lower in *. rewrite !map_app, Htr, Hlow. f_equal.
      f_equal. clear Hsuf. induction Hall as [|c l [_ Hc] _ IH];
        [reflexivity|]. cbn. rewrite (translator_not_punct c Hc), IH.
      reflexivity. }
    rewrite Hclean.
    assert (Hns' : Forall (fun c => isspace c = false) (k ++ lower suffix)).
    { apply Forall_app. split; [exact Hns|]. unfold lower.
      clear Hsuf Hclean. induction Hall as [|c l [Hc _] _ IH]; cbn;
        constructor; [rewrite lower_char_space; exact Hc | exact IH]. }
    assert (Hne' : k ++ lower suffix <> []).
    { destruct k; [contradiction|discriminate]. }
    pose proof (split_ws_single [] (k ++ lower suffix) [] Hsp0 Hns' Hne' Hsp0)
      as Hsplit.
    cbn [app] in Hsplit. rewrite app_nil_r in Hsplit. rewrite Hsplit.
    cbn. rewrite eqb_str_app_false; [reflexivity|].
    destruct suffix; [contradiction|discriminate].
  - rewrite (keywords_check_eq k _ self Hargs), Hlow.
    unfold clean_and_split. rewrite Htr, Hlow.
    pose proof (split_ws_single [] k [] Hsp0 Hns Hne Hsp0) as Hsplit.
    cbn [app] in Hsplit. rewrite app_nil_r in Hsplit. rewrite Hsplit.
    cbn. rewrite eqb_str_refl. reflexivity.
  - intros p1 p2 Hp1 Hp2.
    rewrite (keywords_check_eq k _ self Hargs), Hlow.
    unfold clean_and_split.
    assert (Hpunct : forall p, Forall (fun c => is_punct c = true) p ->
              lower (map translator p) = repeat SP (length p)).
    { induction 1 as [|c l Hc _ IH]; [reflexivity|].
      unfold lower in *. cbn. rewrite (translator_punct c Hc), IH.
      reflexivity. }
    assert (Hrep : forall n, Forall (fun c => isspace c = true) (repeat SP n)).
    { induction n; cbn; constructor; [reflexivity|assumption]. }
    assert (Hclean : lower (map translator (p1 ++ k ++ p2))
                     = repeat SP (length p1) ++ k ++ repeat SP (length p2)).
    { unfold lower in *. rewrite !map_app, Htr, Hlow.
      rewrite (Hpunct p1 Hp1), (Hpunct p2 Hp2). reflexivity. }
    rewrite Hclean, split_ws_single by auto.
    cbn. rewrite eqb_str_refl. reflexivity.
  - intros variant Hv.
    rewrite (keywords_check_eq k _ self Hargs), Hlow.
    unfold clean_and_split.
    assert (Hclean : map translator variant = variant).
    { subst k. clear Hne Htr Hlow Hns Hargs.
      induction variant as [|c v IH]; [reflexivity|].
      unfold lower in Hk. cbn in Hk. inversion Hk as [|? ? Hc Hrest]; subst.
      cbn. rewrite (lower_translator_variant c Hc), IH by exact Hrest.
      reflexivity. }
    rewrite Hclean, Hv.
    pose proof (split_ws_single [] k [] Hsp0 Hns Hne Hsp0) as Hsplit.
    cbn [app] in Hsplit. rewrite app_nil_r in Hsplit. rewrite Hsplit.
    cbn. rewrite eqb_str_refl. reflexivity.
Qed.

Lemma C4_keyword_whole_word_witness :
  let k := py "apple" in
  let self := keyword_self k in
  KeywordsPresenceChecker.check_following (py "applepie") self
  = (Ok false, self)
  /\ KeywordsPresenceChecker.check_following (py "apple") self
     = (Ok true, self)
  /\ KeywordsPresenceChecker.check_following (py "(apple)!") self
     = (Ok true, self)
  /\ KeywordsPresenceChecker.check_following (py "ApPLE") self
     = (Ok true, self).
Proof.
  cbv zeta.
  assert (Hword : keyword_word (py "apple")).
  { split; [discriminate|]. repeat constructor. }
  destruct (C4_keyword_whole_word (py "apple") (keyword_self (py "apple"))
              Hword (keyword_self_args _)) as (H1 & H2 & H3 & H4).
  split; [|split; [|split]].
  - apply (H1 (py "pie")); [discriminate|]. repeat constructor.
  - exact H2.
  - apply (H3 (py "(") (py ")!")); repeat constructor.
  - apply (H4 (py "ApPLE")). reflexivity.
Defined.
End KeywordsWholeWord.

Section ListLiteral.

(** C7, at the failing input: when [ast.literal_eval] raises an exception
    other than [ValueError] and [SyntaxError], as it does with [TypeError]
    on "{[1]: 2}", the list-literal check does not return a boolean: the
    exception leaves [check_following]. *)
Theorem C7_list_literal_exception_propagates :
  forall (literal_eval : str -> outcome literal) (self : BaseChecker),
    literal_eval (py "{[1]: 2}") = Raise TypeError ->
    PythonListFormatChecker.check_following literal_eval (py "{[1]: 2}") self
    = (Raise TypeError, self).
Proof.
  intros literal_eval self H.
  unfold PythonListFormatChecker.check_following.
  change (PythonListFormatChecker.fenced_value (py "{[1]: 2}"))
    with (py "{[1]: 2}").
  rewrite H. reflexivity.
Qed.

Lemma C7_list_literal_exception_propagates_witness :
  PythonListFormatChecker.check_following literal_eval_sample (py "{[1]: 2}")
    (instance PythonListFormatChecker [])
  = (Raise TypeError, instance PythonListFormatChecker []).
Proof.
  apply (C7_list_literal_exception_propagates literal_eval_sample).
  vm_compute. reflexivity.
Defined.
End ListLiteral.

Section Purity.



































End Purity.

(** ** The matcher finds a match exactly when there is one *)

Section MatcherCorrect.
Import Re ReSpec.
Context {R : Type}.
Variable fl : flags.

Lemma last_or_cons (c : ascii) (w : str) (pv : option ascii) :
  last_or (c :: w) pv = last_or w (Some c).
Proof.
  unfold last_or. cbn [rev]. destruct (rev w); reflexivity.
Qed.

Lemma orelse_none {A} (x y : option A) :
  match x with Some v => Some v | None => y end = None
  <-> x = None /\ y = None.
Proof.
  destruct x as [v|].
  - split; [discriminate | intros [H _]; discriminate].
  - split; [intros H; split; [reflexivity|exact H] | intros [_ H]; exact H].
Qed.

Lemma rep_none (a : atom) (greedy : bool) (l : str) :
  forall (min p : nat) (pv : option ascii)
         (k : nat -> option ascii -> str -> option R),
    rep fl a greedy min l p pv k = None
    <-> (forall w l', l = w ++ l' ->
                      forallb (atom_ok fl a) w = true ->
                      min <= length w ->
                      k (p + length w) (last_or w pv) l' = None).
Proof.
  induction l as [|c l IH]; intros min p pv k.
  - cbn [rep]. split.
    + intros H w l' E Hw Hmin.
      destruct w; [|discriminate]. cbn in E. subst l'.
      cbn in Hmin. destruct min; [|lia].
      rewrite Nat.add_0_r. exact H.
    + intros H. destruct min; [|reflexivity].
      specialize (H [] [] eq_refl eq_refl (le_n 0)).
      rewrite Nat.add_0_r in H. exact H.
  - assert (Hmore :
      (if atom_ok fl a c
       then rep fl a greedy (Nat.pred min) l (S p) (Some c) k
       else None) = None
      <-> (forall w l', l = w ++ l' ->
             forallb (atom_ok fl a) (c :: w) = true ->
             min <= length (c :: w) ->
             k (p + length (c :: w)) (last_or (c :: w) pv) l' = None)).
    { cbn [forallb length]. destruct (atom_ok fl a c).
      - rewrite IH. split; intros H w l' E Hw Hmin.
        + rewrite last_or_cons, Nat.add_succ_r.
          apply (H w l' E Hw). lia.
        + specialize (H w l' E Hw ltac:(lia)).
          rewrite last_or_cons, Nat.add_succ_r in H. exact H.
      - split; [intros _ w l' _ Hw; discriminate | reflexivity]. }
    assert (Hstop :
      match min with O => k p pv (c :: l) | S _ => None end = None
      <-> (min = 0 -> k p pv (c :: l) = None)).
    { destruct min; split; intros H; try reflexivity; auto; discriminate. }
    assert (Hboth :
      rep fl a greedy min (c :: l) p pv k = None
      <-> (if atom_ok fl a c
           then rep fl a greedy (Nat.pred min) l (S p) (Some c) k
           else None) = None
          /\ match min with O => k p pv (c :: l) | S _ => None end = None).
    { cbn [rep]. destruct greedy; rewrite orelse_none; tauto. }
    rewrite Hboth, Hmore, Hstop. split.
    + intros [H1 H2] w l' E Hw Hmin. destruct w as [|d w].
      * cbn in E. subst l'. cbn in Hmin.
        rewrite Nat.add_0_r. apply H2. lia.
      * cbn in E. injection E as -> ->. apply (H1 w l' eq_refl Hw Hmin).
    + intros H. split.
      * intros w l' E Hw Hmin. apply (H (c :: w) l'); [|exact Hw|exact Hmin].
        rewrite E. reflexivity.
      * intros ->. specialize (H [] (c :: l) eq_refl eq_refl (le_n 0)).
        rewrite Nat.add_0_r in H. exact H.
Qed.

Lemma rm_none (r : regex) :
  forall (st : mstate) (k : mstate -> option R),
    rm fl r st k = None
    <-> (forall st', Matches fl r st st' -> k st' = None).
Proof.
  induction r as [|a|r1 IH1 r2 IH2|r1 IH1 r2 IH2|r1 IH1|a min g|n r1 IH1| |];
    intros st k; cbn [rm Matches].
  - split; [intros H st' ->; exact H | intros H; apply H; reflexivity].
  - destruct (rest st) as [|c l] eqn:E.
    + split; [|reflexivity]. intros _ st' (c & l & Hc & _). discriminate.
    + destruct (atom_ok fl a c) eqn:Hok.
      * split.
        -- intros H st' (c' & l' & Hc & _ & ->). injection Hc as <- <-.
           unfold after. cbn [length last_or rev app].
           rewrite Nat.add_1_r. exact H.
        -- intros H. specialize (H (after st [c] l)).
           unfold after in H. cbn [length last_or rev app] in H.
           rewrite Nat.add_1_r in H. apply H.
           exists c, l. repeat split. exact Hok.
      * split; [|reflexivity]. intros _ st' (c' & l' & Hc & Hok' & _).
        injection Hc as <- <-. congruence.
  - rewrite IH1. split.
    + intros H st' (mid & H1 & H2).
      specialize (H mid H1). rewrite IH2 in H. apply H. exact H2.
    + intros H mid H1. rewrite IH2. intros st' H2. apply H.
      exists mid. split; assumption.
  - rewrite orelse_none, IH1, IH2. split.
    + intros [H1 H2] st' [H|H]; auto.
    + intros H. split; intros st' H'; apply H; auto.
  - rewrite orelse_none, IH1. split.
    + intros [H1 H2] st' [H| ->]; auto.
    + intros H. split; [intros st' H'; apply H; auto | apply H; auto].
  - rewrite rep_none. split.
    + intros H st' (w & l & E & Hw & Hmin & ->). apply (H w l E Hw Hmin).
    + intros H w l E Hw Hmin. apply (H (after st w l)).
      exists w, l. repeat split; assumption.
  - rewrite IH1. split.
    + intros H st' (st1 & H1 & ->). apply H. exact H1.
    + intros H st1 H1. apply H. exists st1. split; [exact H1|reflexivity].
  - destruct (bol_ok fl st).
    + split; [intros H st' [_ ->]; exact H | intros H; apply H; auto].
    + split; [intros _ st' [H _]; discriminate | reflexivity].
  - destruct (eol_ok fl st).
    + split; [intros H st' [_ ->]; exact H | intros H; apply H; auto].
    + split; [intros _ st' [H _]; discriminate | reflexivity].
Qed.

Lemma orelse_some {A} (x y : option A) (v : A) :
  match x with Some u => Some u | None => y end = Some v ->
  x = Some v \/ y = Some v.
Proof. destruct x; intros H; [left|right]; exact H. Qed.

Lemma rep_some (a : atom) (greedy : bool) (l : str) :
  forall (min p : nat) (pv : option ascii)
         (k : nat -> option ascii -> str -> option R) (x : R),
    rep fl a greedy min l p pv k = Some x ->
    exists w l', l = w ++ l'
                 /\ forallb (atom_ok fl a) w = true
                 /\ min <= length w
                 /\ k (p + length w) (last_or w pv) l' = Some x.
Proof.
  induction l as [|c l IH]; intros min p pv k x H.
  - cbn [rep] in H. destruct min; [|discriminate].
    exists [], []. cbn. rewrite Nat.add_0_r. auto.
  - assert (Hcases :
      (atom_ok fl a c = true
       /\ rep fl a greedy (Nat.pred min) l (S p) (Some c) k = Some x)
      \/ (min = 0 /\ k p pv (c :: l) = Some x)).
    { cbn [rep] in H. destruct greedy; apply orelse_some in H;
        destruct H as [H|H].
      - destruct (atom_ok fl a c); [left; auto | discriminate].
      - destruct min; [right; auto | discriminate].
      - destruct min; [right; auto | discriminate].
      - destruct (atom_ok fl a c); [left; auto | discriminate]. }
    destruct Hcases as [[Hok Hrec] | [-> Hk]].
    + destruct (IH _ _ _ _ _ Hrec) as (w & l' & -> & Hw & Hmin & Hk).
      exists (c :: w), l'. cbn [forallb length app].
      rewrite Hok, last_or_cons, Nat.add_succ_r.
      repeat split; auto. lia.
    + exists [], (c :: l). cbn. rewrite Nat.add_0_r. auto.
Qed.

Lemma rm_some (r : regex) :
  forall (st : mstate) (k : mstate -> option R) (x : R),
    rm fl r st k = Some x ->
    exists st', Matches fl r st st' /\ k st' = Some x.
Proof.
  induction r as [|a|r1 IH1 r2 IH2|r1 IH1 r2 IH2|r1 IH1|a min g|n r1 IH1| |];
    intros st k x H; cbn [rm Matches] in *.
  - exists st. auto.
  - destruct (rest st) as [|c l] eqn:E; [discriminate|].
    destruct (atom_ok fl a c) eqn:Hok; [|discriminate].
    exists (after st [c] l). split.
    + exists c, l. auto.
    + unfold after. cbn [length last_or rev app].
      rewrite Nat.add_1_r. exact H.
  - destruct (IH1 _ _ _ H) as (mid & H1 & H').
    destruct (IH2 _ _ _ H') as (st' & H2 & Hk).
    exists st'. split; [exists mid; auto | exact Hk].
  - apply orelse_some in H. destruct H as [H|H].
    + destruct (IH1 _ _ _ H) as (st' & H1 & Hk). exists st'. auto.
    + destruct (IH2 _ _ _ H) as (st' & H2 & Hk). exists st'. auto.
  - apply orelse_some in H. destruct H as [H|H].
    + destruct (IH1 _ _ _ H) as (st' & H1 & Hk). exists st'. auto.
    + exists st. auto.
  - apply rep_some in H. destruct H as (w & l & E & Hw & Hmin & Hk).
    exists (after st w l). split; [exists w, l; auto | exact Hk].
  - destruct (IH1 _ _ _ H) as (st1 & H1 & Hk).
    eexists. split; [exists st1; split; [exact H1|reflexivity] | exact Hk].
  - destruct (bol_ok fl st); [|discriminate]. exists st. auto.
  - destruct (eol_ok fl st); [|discriminate]. exists st. auto.
Qed.
End MatcherCorrect.

Section SearchCorrect.
Import Re ReSpec.
Variable fl : flags.
Variable r : regex.

Lemma match_here_none (l : str) (p : nat) (pv : option ascii) :
  match_here fl r l p pv false = None
  <-> (forall st', ~ Matches fl r (start_state p pv l) st').
Proof.
  unfold match_here. rewrite rm_none. cbn [andb]. split.
  - intros H st' Hm. specialize (H st' Hm). discriminate.
  - intros H st' Hm. exfalso. exact (H st' Hm).
Qed.

Lemma match_here_some (l : str) (p : nat) (pv : option ascii) (st1 : mstate) :
  match_here fl r l p pv false = Some st1 ->
  Matches fl r (start_state p pv l) st1.
Proof.
  unfold match_here. intros H. apply rm_some in H.
  destruct H as (st' & Hm & Hk). cbn [andb] in Hk.
  injection Hk as <-. exact Hm.
Qed.

Lemma search_go_none (l : str) :
  forall (p : nat) (pv : option ascii) (skipped : str),
    search_go fl r l p pv false skipped = None
    <-> (forall l1 l2 st',
            l = l1 ++ l2 ->
            ~ Matches fl r
                (start_state (p + length l1) (last_or l1 pv) l2) st').
Proof.
  induction l as [|c l IH]; intros p pv skipped; cbn [search_go].
  - destruct (match_here fl r [] p pv false) as [m0|] eqn:E.
    + split; [discriminate|]. intros H. exfalso.
      apply match_here_some in E.
      apply (H [] [] m0 eq_refl). cbn [length last_or rev].
      rewrite Nat.add_0_r. exact E.
    + split; [|reflexivity]. intros _ l1 l2 st' El.
      destruct l1; [|discriminate]. cbn in El. subst l2.
      cbn [length last_or rev]. rewrite Nat.add_0_r.
      apply match_here_none. exact E.
  - destruct (match_here fl r (c :: l) p pv false) as [m0|] eqn:E.
    + split; [discriminate|]. intros H. exfalso.
      apply match_here_some in E.
      apply (H [] (c :: l) m0 eq_refl). cbn [length last_or rev].
      rewrite Nat.add_0_r. exact E.
    + rewrite IH. split.
      * intros H l1 l2 st' El. destruct l1 as [|d l1].
        -- cbn in El. subst l2. cbn [length last_or rev].
           rewrite Nat.add_0_r. apply match_here_none. exact E.
        -- cbn in El. injection El as <- ->.
           rewrite last_or_cons. cbn [length]. rewrite Nat.add_succ_r.
           apply (H l1 l2 st' eq_refl).
      * intros H l1 l2 st' El. specialize (H (c :: l1) l2 st').
        rewrite last_or_cons in H. cbn [length] in H.
        rewrite Nat.add_succ_r in H. apply H. rewrite El. reflexivity.
Qed.

Lemma search_go_some (l : str) :
  forall (p : nat) (pv : option ascii) (skipped : str) (m : found),
    search_go fl r l p pv false skipped = Some m ->
    exists l1 l2 st',
      l = l1 ++ l2
      /\ Matches fl r (start_state (p + length l1) (last_or l1 pv) l2) st'.
Proof.
  induction l as [|c l IH]; intros p pv skipped m H; cbn [search_go] in H.
  - destruct (match_here fl r [] p pv false) as [m0|] eqn:E; [|discriminate].
    apply match_here_some in E. exists [], [], m0.
    cbn [length last_or rev]. rewrite Nat.add_0_r. auto.
  - destruct (match_here fl r (c :: l) p pv false) as [m0|] eqn:E.
    + apply match_here_some in E. exists [], (c :: l), m0.
      cbn [length last_or rev]. rewrite Nat.add_0_r. auto.
    + destruct (IH _ _ _ _ H) as (l1 & l2 & st' & -> & Hm).
      exists (c :: l1), l2, st'. rewrite last_or_cons. cbn [length].
      rewrite Nat.add_succ_r. auto.
Qed.

Lemma findall_nil (s : str) :
  findall fl r s = [] <-> search_go fl r s 0 None false [] = None.
Proof.
  unfold findall, finditer.
  replace (2 * length s + 2) with (S (2 * length s + 1)) by lia.
  cbn [iter_go].
  destruct (search_go fl r s 0 None false []) as [m|].
  - destruct (iter_go _ _ _ _ _ _ _) as [ms tail]. cbn.
    split; discriminate.
  - cbn. split; reflexivity.
Qed.

(** [findall] returns a match exactly when the pattern matches somewhere. *)
Lemma findall_matches_in (s : str) :
  findall fl r s <> [] <-> matches_in fl r s.
Proof.
  rewrite findall_nil. unfold matches_in. split.
  - intros H.
    destruct (search_go fl r s 0 None false []) as [m|] eqn:E;
      [|contradiction].
    apply search_go_some in E. exact E.
  - intros (l1 & l2 & st' & El & Hm) H.
    rewrite search_go_none in H. apply (H l1 l2 st' El). exact Hm.
Qed.
End SearchCorrect.

Section FinditerFuel.
Import Re ReSpec.
Variable fl : flags.
Variable r : regex.

Lemma Matches_consumes (r0 : regex) :
  forall st st', Matches fl r0 st st' ->
    exists w, rest st = w ++ rest st' /\ pos st' = pos st + length w.
Proof.
  induction r0 as [|a|r1 IH1 r2 IH2|r1 IH1 r2 IH2|r1 IH1|a min g|n r1 IH1| |];
    intros st st' H; cbn [Matches] in H.
  - subst. exists []. cbn. auto.
  - destruct H as (c & l & E & _ & ->). exists [c]. cbn. auto.
  - destruct H as (mid & H1 & H2).
    destruct (IH1 _ _ H1) as (w1 & E1 & P1).
    destruct (IH2 _ _ H2) as (w2 & E2 & P2).
    exists (w1 ++ w2). rewrite E1, E2, P2, P1, length_app, <- app_assoc.
    split; [reflexivity|lia].
  - destruct H as [H|H]; eauto.
  - destruct H as [H| ->]; [eauto|]. exists []. cbn. auto.
  - destruct H as (w & l & E & _ & _ & ->). exists w. cbn. auto.
  - destruct H as (st1 & H1 & ->). cbn. eauto.
  - destruct H as [_ ->]. exists []. cbn. auto.
  - destruct H as [_ ->]. exists []. cbn. auto.
Qed.

Lemma match_here_consumes (l : str) (p : nat) (pv : option ascii)
    (must_advance : bool) (st1 : mstate) :
  match_here fl r l p pv must_advance = Some st1 ->
  exists w, l = w ++ rest st1 /\ pos st1 = p + length w
            /\ (must_advance = true -> w <> []).
Proof.
  unfold match_here. intros H. apply rm_some in H.
  destruct H as (st' & Hm & Hk).
  destruct (Matches_consumes _ _ _ Hm) as (w & E & P). cbn in E, P.
  destruct (must_advance && Nat.eqb (pos st') p) eqn:Hadv; [discriminate|].
  injection Hk as <-. exists w. repeat split; [exact E | exact P |].
  intros -> ->. cbn in P. rewrite Nat.add_0_r in P.
  rewrite P, Nat.eqb_refl in Hadv. discriminate.
Qed.

(** Every round of [finditer] lowers twice the length of the text ahead,
    plus one when an empty match is still allowed at the index. *)
Lemma search_go_measure (l : str) :
  forall (p : nat) (pv : option ascii) (must_advance : bool) (skipped : str)
         (m : found),
    search_go fl r l p pv must_advance skipped = Some m ->
    2 * length (rest (final m)) + match text m with [] => 0 | _ => 1 end
    < 2 * length l + (if must_advance then 0 else 1).
Proof.
  induction l as [|c l IH]; intros p pv ma skipped m H; cbn [search_go] in H.
  - destruct (match_here fl r [] p pv ma) as [st1|] eqn:E; [|discriminate].
    injection H as <-. cbn [final text].
    destruct (match_here_consumes _ _ _ _ _ E) as (w & El & P & Hadv).
    destruct w; [|discriminate]. cbn in El. rewrite <- El, firstn_nil. cbn.
    destruct ma; [exfalso; apply Hadv; reflexivity | lia].
  - destruct (match_here fl r (c :: l) p pv ma) as [st1|] eqn:E.
    + injection H as <-. cbn [final text].
      destruct (match_here_consumes _ _ _ _ _ E) as (w & El & P & Hadv).
      replace (pos st1 - p) with (length w) by lia.
      rewrite El.
      rewrite firstn_app, firstn_all, Nat.sub_diag, length_app. cbn [firstn].
      rewrite app_nil_r. destruct w as [|d w].
      * destruct ma; [exfalso; apply Hadv; reflexivity | cbn; lia].
      * cbn [length]. destruct ma; lia.
    + apply IH in H. cbn [length]. destruct ma; lia.
Qed.

Lemma iter_go_eq (fuel : nat) (l : str) (p : nat) (pv : option ascii)
    (must_advance : bool) :
  iter_go (S fuel) fl r l p pv must_advance
  = match search_go fl r l p pv must_advance [] with
    | None => ([], l)
    | Some m =>
        let (ms, tail) :=
          iter_go fuel fl r (rest (final m)) (pos (final m)) (prev (final m))
            (match text m with [] => true | _ => false end) in
        (m :: ms, tail)
    end.
Proof. reflexivity. Qed.

Lemma iter_go_fuel (fuel : nat) :
  forall (l : str) (p : nat) (pv : option ascii) (must_advance : bool),
    2 * length l + (if must_advance then 0 else 1) < fuel ->
    iter_go (S fuel) fl r l p pv must_advance
    = iter_go fuel fl r l p pv must_advance.
Proof.
  induction fuel as [|fuel IH]; intros l p pv ma Hlt; [lia|].
  rewrite (iter_go_eq (S fuel)), (iter_go_eq fuel).
  destruct (search_go fl r l p pv ma []) as [m|] eqn:E; [|reflexivity].
  apply search_go_measure in E.
  rewrite IH; [reflexivity|]. destruct (text m); lia.
Qed.

(** The rounds that [finditer] allows are enough: more of them find the
    same matches. *)
Lemma finditer_fuel (s : str) (extra : nat) :
  iter_go (2 * length s + 2 + extra) fl r s 0 None false = finditer fl r s.
Proof.
  unfold finditer. induction extra as [|extra IH].
  - rewrite Nat.add_0_r. reflexivity.
  - rewrite Nat.add_succ_r, iter_go_fuel; [exact IH | lia].
Qed.
End FinditerFuel.

Section PostscriptPattern.
Import Re ReSpec.

Lemma line_of_spec (s : str) :
  s = fst (line_of s) ++ snd (line_of s)
  /\ forallb (atom_ok MULTILINE Dot) (fst (line_of s)) = true
  /\ forall st, rest st = snd (line_of s) -> eol_ok MULTILINE st = true.
Proof.
  induction s as [|c s (IH1 & IH2 & IH3)].
  - cbn. repeat split. intros st E. unfold eol_ok. rewrite E. reflexivity.
  - cbn [line_of]. destruct (Ascii.eqb c LF) eqn:Ec.
    + cbn. repeat split. intros st E. unfold eol_ok. rewrite E, Ec.
      reflexivity.
    + destruct (line_of s) as [a b]. cbn [fst snd] in *.
      cbn [forallb atom_ok app]. rewrite Ec, IH2, <- IH1.
      repeat split. exact IH3.
Qed.

Ltac is_char H :=
  cbn [atom_ok] in H; apply Ascii.eqb_eq in H; subst.

Lemma opt_ws_cases (st m : mstate) :
  Matches MULTILINE (Opt Utils.ws) st m ->
  exists w, rest st = w ++ rest m
            /\ (w = [] \/ exists c, w = [c] /\ isspace c = true).
Proof.
  cbn [Matches Utils.ws]. intros [(c & l & E & Hc & ->) | ->].
  - exists [c]. cbn [rest after]. split; [exact E|]. right. exists c. auto.
  - exists []. auto.
Qed.

Lemma opt_ws_build (st : mstate) (w l : str) :
  rest st = w ++ l ->
  (w = [] \/ exists c, w = [c] /\ isspace c = true) ->
  exists m, Matches MULTILINE (Opt Utils.ws) st m /\ rest m = l.
Proof.
  intros E [-> | (c & -> & Hc)].
  - exists st. split; [right; reflexivity | exact E].
  - exists (after st [c] l). split; [|reflexivity].
    left. exists c, l. auto.
Qed.

Lemma ps_pattern_marker (s : str) :
  matches_in MULTILINE PS_PATTERN s <-> has_ps_marker s.
Proof.
  split.
  - intros (l1 & l2 & st' & -> & Hm).
    unfold PS_PATTERN, seq, star, dot, chr in Hm.
    cbn [Matches] in Hm.
    destruct Hm as (m1 & (w0 & la & E0 & Hw0 & _ & ->) & Hm).
    destruct Hm as (m2 & (c1 & lb & E1 & Hc1 & ->) & Hm).
    destruct Hm as (m3 & (c2 & lc & E2 & Hc2 & ->) & Hm).
    destruct Hm as (m4 & Hopt & Hm).
    destruct Hm as (m5 & (c3 & ld & E3 & Hc3 & ->) & Hm).
    destruct Hm as (m6 & (c4 & le & E4 & Hc4 & ->) & _).
    apply opt_ws_cases in Hopt. destruct Hopt as (w & Ew & Hw).
    cbn [rest after start_state] in *.
    is_char Hc1. is_char Hc2. is_char Hc3. is_char Hc4.
    exists (l1 ++ w0), w, le. split; [|exact Hw].
    rewrite E3. rewrite <- !app_assoc. reflexivity.
  - intros (pre & w & post & -> & Hw).
    exists pre, (py "p." ++ w ++ py "s." ++ post).
    destruct (line_of_spec post) as (Hpost & Hline & Heol).
    set (st0 := start_state (length pre) (last_or pre None)
                  (py "p." ++ w ++ py "s." ++ post)).
    set (m2 := after (after (after st0 [] (rest st0)) ["p"%char]
                        (py "." ++ w ++ py "s." ++ post))
                 ["."%char] (w ++ py "s." ++ post)).
    destruct (opt_ws_build m2 w (py "s." ++ post) eq_refl Hw)
      as (m4 & Hopt & E4).
    eexists. split; [reflexivity|].
    unfold PS_PATTERN, seq, star, dot, chr.
    cbn [Matches].
    exists (after st0 [] (rest st0)). split.
    { exists [], (rest st0). repeat split. lia. }
    eexists. split.
    { exists "p"%char, (py "." ++ w ++ py "s." ++ post). repeat split. }
    eexists. split.
    { exists "."%char, (w ++ py "s." ++ post). repeat split. }
    exists m4. split; [exact Hopt|].
    eexists. split.
    { exists "s"%char, (py "." ++ post). split; [exact E4|]. repeat split. }
    eexists. split.
    { exists "."%char, post. repeat split. }
    eexists. split.
    { exists (fst (line_of post)), (snd (line_of post)).
      split; [exact Hpost|]. split; [exact Hline|]. split; [lia|reflexivity]. }
    split; [|reflexivity]. apply Heol. reflexivity.
Qed.

Lemma pps_pattern_marker (s : str) :
  matches_in MULTILINE PPS_PATTERN s <-> has_pps_marker s.
Proof.
  split.
  - intros (l1 & l2 & st' & -> & Hm).
    unfold PPS_PATTERN, seq, star, dot, chr in Hm.
    cbn [Matches] in Hm.
    destruct Hm as (m1 & (w0 & la & E0 & Hw0 & _ & ->) & Hm).
    destruct Hm as (m2 & (c1 & lb & E1 & Hc1 & ->) & Hm).
    destruct Hm as (m3 & (c2 & lc & E2 & Hc2 & ->) & Hm).
    destruct Hm as (m4 & Hopt1 & Hm).
    destruct Hm as (m5 & (c3 & ld & E3 & Hc3 & ->) & Hm).
    destruct Hm as (m6 & (c4 & le & E4 & Hc4 & ->) & Hm).
    destruct Hm as (m7 & Hopt2 & Hm).
    destruct Hm as (m8 & (c5 & lf & E5 & Hc5 & ->) & _).
    apply opt_ws_cases in Hopt1. destruct Hopt1 as (w1 & Ew1 & Hw1).
    apply opt_ws_cases in Hopt2. destruct Hopt2 as (w2 & Ew2 & Hw2).
    cbn [rest after start_state] in *.
    is_char Hc1. is_char Hc2. is_char Hc3. is_char Hc4. is_char Hc5.
    exists (l1 ++ w0), w1, w2, lf. split; [|split; assumption].
    rewrite ?E3, ?Ew2, ?E5. rewrite <- !app_assoc. reflexivity.
  - intros (pre & w1 & w2 & post & -> & Hw1 & Hw2).
    exists pre, (py "p." ++ w1 ++ py "p." ++ w2 ++ py "s" ++ post).
    destruct (line_of_spec post) as (Hpost & Hline & Heol).
    set (st0 := start_state (length pre) (last_or pre None)
                  (py "p." ++ w1 ++ py "p." ++ w2 ++ py "s" ++ post)).
    set (m2 := after (after (after st0 [] (rest st0)) ["p"%char]
                        (py "." ++ w1 ++ py "p." ++ w2 ++ py "s" ++ post))
                 ["."%char] (w1 ++ py "p." ++ w2 ++ py "s" ++ post)).
    destruct (opt_ws_build m2 w1 (py "p." ++ w2 ++ py "s" ++ post)
                eq_refl Hw1) as (m4 & Hopt1 & E4).
    set (m6 := after (after m4 ["p"%char] (py "." ++ w2 ++ py "s" ++ post))
                 ["."%char] (w2 ++ py "s" ++ post)).
    destruct (opt_ws_build m6 w2 (py "s" ++ post) eq_refl Hw2)
      as (m7 & Hopt2 & E7).
    eexists. split; [reflexivity|].
    unfold PPS_PATTERN, seq, star, dot, chr.
    cbn [Matches].
    exists (after st0 [] (rest st0)). split.
    { exists [], (rest st0). repeat split. lia. }
    eexists. split.
    { exists "p"%char, (py "." ++ w1 ++ py "p." ++ w2 ++ py "s" ++ post).
      repeat split. }
    eexists. split.
    { exists "."%char, (w1 ++ py "p." ++ w2 ++ py "s" ++ post).
      repeat split. }
    exists m4. split; [exact Hopt1|].
    eexists. split.
    { exists "p"%char, (py "." ++ w2 ++ py "s" ++ post).
      split; [exact E4|]. repeat split. }
    eexists. split.
    { exists "."%char, (w2 ++ py "s" ++ post). repeat split. }
    exists m7. split; [exact Hopt2|].
    eexists. split.
    { exists "s"%char, post. split; [exact E7|]. repeat split. }
    eexists. split.
    { exists (fst (line_of post)), (snd (line_of post)).
      split; [exact Hpost|]. split; [exact Hline|]. split; [lia|reflexivity]. }
    split; [|reflexivity]. apply Heol. reflexivity.
Qed.
End PostscriptPattern.

Section Postscript.
Import Re ReSpec.

(** C6 as stated does not hold: in "P.S. note", line feed, "more text" the
    text after the marker stops at the end of the first line, the match
    "p.s. note" is not a suffix of the input, the same pattern without
    [re.MULTILINE] (where "$" is the end of the input) finds nothing, and
    yet the check returns true. *)
Lemma C6_counterexample :
  PostscriptChecker.check_following two_lines ps_self = (Ok true, ps_self)
  /\ findall MULTILINE PS_PATTERN (lower two_lines) = [py "p.s. note"]
  /\ endswith (lower two_lines) (py "p.s. note") = false
  /\ findall NOFLAGS PS_PATTERN (lower two_lines) = [].
Proof. repeat split; vm_compute; reflexivity. Qed.

Lemma check_postscript_ps (arg_value : str) (b : bool) :
  check_postscript arg_value (py "P.S.") = Some b
  <-> (b = true <-> has_ps_marker (lower arg_value)).
Proof.
  unfold check_postscript.
  change (postscript_pattern (py "P.S.")) with (Some PS_PATTERN).
  pose proof (findall_matches_in MULTILINE PS_PATTERN (lower arg_value)) as H.
  rewrite ps_pattern_marker in H.
  destruct (findall MULTILINE PS_PATTERN (lower arg_value)) as [|m ms].
  - destruct b; split.
    + discriminate.
    + intros [Hb _]. exfalso. apply (proj2 H); [|reflexivity].
      tauto.
    + intros _. split; [discriminate|]. intros Hm.
      exfalso. apply (proj2 H Hm). reflexivity.
    + reflexivity.
  - assert (Hm : has_ps_marker (lower arg_value)).
    { apply H. discriminate. }
    destruct b; split; try reflexivity; try discriminate; try tauto.
    intros [_ Hb]. specialize (Hb Hm). discriminate.
Qed.

Lemma check_postscript_pps (arg_value : str) (b : bool) :
  check_postscript arg_value (py "P.P.S.") = Some b
  <-> (b = true <-> has_pps_marker (lower arg_value)).
Proof.
  unfold check_postscript.
  change (postscript_pattern (py "P.P.S.")) with (Some PPS_PATTERN).
  pose proof (findall_matches_in MULTILINE PPS_PATTERN (lower arg_value)) as H.
  rewrite pps_pattern_marker in H.
  destruct (findall MULTILINE PPS_PATTERN (lower arg_value)) as [|m ms].
  - destruct b; split.
    + discriminate.
    + intros [Hb _]. exfalso. apply (proj2 H); [|reflexivity].
      tauto.
    + intros _. split; [discriminate|]. intros Hm.
      exfalso. apply (proj2 H Hm). reflexivity.
    + reflexivity.
  - assert (Hm : has_pps_marker (lower arg_value)).
    { apply H. discriminate. }
    destruct b; split; try reflexivity; try discriminate; try tauto.
    intros [_ Hb]. specialize (Hb Hm). discriminate.
Qed.

Lemma postscript_check_eq (marker : str) (self : BaseChecker)
    (arg_value : str) (b : bool) :
  arguments self !! "postscript_marker" = Some (VStr marker) ->
  PostscriptChecker.check_following arg_value self = (Ok b, self)
  <-> check_postscript arg_value marker = Some b.
Proof.
  intros Harg.
  unfold PostscriptChecker.check_following, arg_str, subscript, bind.
  rewrite Harg. cbn.
  destruct (check_postscript arg_value marker) as [b'|]; cbn.
  - split; intros H; injection H as ->; reflexivity.
  - split; discriminate.
Qed.

(** C6 (amended): the postscript check returns true if and only if the
    marker occurs somewhere in the input, case-insensitively: for "P.S."
    the lower-cased input contains "p.", at most one whitespace character,
    and "s."; for "P.P.S." it contains "p.", "p." and "s" with at most one
    whitespace character before the second and the third letter.  Nothing
    is asked of the text after the marker: the match runs to the end of
    the marker's line, which need not be the end of the input. *)
Theorem C6_postscript_marker_on_any_line :
  forall arg_value : str,
    (PostscriptChecker.check_following arg_value ps_self = (Ok true, ps_self)
     <-> has_ps_marker (lower arg_value))
    /\ (PostscriptChecker.check_following arg_value ps_self
        = (Ok false, ps_self)
        <-> ~ has_ps_marker (lower arg_value))
    /\ (PostscriptChecker.check_following arg_value pps_self
        = (Ok true, pps_self)
        <-> has_pps_marker (lower arg_value))
    /\ (PostscriptChecker.check_following arg_value pps_self
        = (Ok false, pps_self)
        <-> ~ has_pps_marker (lower arg_value)).
Proof.
  intros arg_value.
  assert (Hps : arguments ps_self !! "postscript_marker"
                = Some (VStr (py "P.S."))) by reflexivity.
  assert (Hpps : arguments pps_self !! "postscript_marker"
                 = Some (VStr (py "P.P.S."))) by reflexivity.
  rewrite !(postscript_check_eq _ _ _ _ Hps).
  rewrite !(postscript_check_eq _ _ _ _ Hpps).
  rewrite !check_postscript_ps, !check_postscript_pps.
  repeat split; try tauto; try discriminate.
  - intros H1 H2. apply H1 in H2. discriminate.
  - intros H1 H2. apply H1 in H2. discriminate.
Qed.
End Postscript.

(** ** Facts about the JSON decoder *)

Section JsonLexical.
Import Json.

Ltac by_cases c :=
  destruct c as [[] [] [] [] [] [] [] []]; vm_compute;
  repeat split; intros; congruence.

Lemma json_ws_facts (c : ascii) :
  json_ws c = true ->
  isspace c = true /\ is_digit c = false /\ is_hex c = false
  /\ is_escape c = false /\ Ascii.eqb c DQ = false
  /\ Ascii.eqb c BSLASH = false /\ Ascii.eqb c "u" = false
  /\ Ascii.eqb c "." = false /\ Ascii.eqb c "e" = false
  /\ Ascii.eqb c "E" = false /\ Ascii.eqb c "-" = false
  /\ Ascii.eqb c "+" = false /\ Ascii.eqb c "0" = false
  /\ ((code c <? 32)%N = true \/ c = SP).
Proof.
  destruct c as [[] [] [] [] [] [] [] []]; vm_compute; intros H;
    try discriminate H; repeat split; auto.
Qed.

Lemma skip_ws_split (s : str) :
  exists w, s = w ++ skip_ws s /\ forallb json_ws w = true.
Proof.
  induction s as [|c s (w & Hs & Hw)]; [exists []; auto|].
  cbn [skip_ws]. destruct (json_ws c) eqn:Hc.
  - exists (c :: w). cbn. rewrite Hc, Hw, <- Hs. auto.
  - exists []. auto.
Qed.

Lemma skip_ws_head (s : str) (c : ascii) (r : str) :
  skip_ws s = c :: r -> json_ws c = false.
Proof.
  induction s as [|d s IH]; [discriminate|]. cbn [skip_ws].
  destruct (json_ws d) eqn:Hd; [exact IH|].
  intros H. injection H as <- <-. exact Hd.
Qed.

Lemma skip_ws_all (t : str) : forallb json_ws t = true -> skip_ws t = [].
Proof.
  induction t as [|c t IH]; [reflexivity|]. cbn.
  intros H. apply andb_true_iff in H as [Hc Ht]. rewrite Hc. auto.
Qed.

Lemma skip_ws_nil (t : str) : skip_ws t = [] -> forallb json_ws t = true.
Proof.
  induction t as [|c t IH]; [reflexivity|]. cbn.
  destruct (json_ws c); [exact IH | discriminate].
Qed.

Lemma skip_ws_app (x t : str) :
  forallb json_ws t = true ->
  skip_ws (x ++ t)
  = match skip_ws x with [] => [] | c :: y => c :: y ++ t end.
Proof.
  intros Ht. induction x as [|c x IH]; [apply skip_ws_all; exact Ht|].
  cbn [skip_ws app]. destruct (json_ws c); [exact IH | reflexivity].
Qed.

Lemma scanstring_go_suffix (s : str) :
  forall (m : smode) (r : str),
    scanstring_go m s = Some r -> exists v, s = v ++ DQ :: r.
Proof.
  induction s as [|c s IH]; intros m r H; [discriminate|].
  cbn [scanstring_go] in H.
  assert (Hrec : forall m', scanstring_go m' s = Some r ->
                            exists v, c :: s = v ++ DQ :: r).
  { intros m' H'. destruct (IH _ _ H') as (v & ->). exists (c :: v).
    reflexivity. }
  destruct m as [| |k].
  - destruct (Ascii.eqb_spec c DQ) as [->|_].
    + injection H as <-. exists []. reflexivity.
    + destruct (Ascii.eqb c BSLASH); [eauto|].
      destruct (code c <? 32)%N; [discriminate|eauto].
  - destruct (Ascii.eqb c "u"); [eauto|].
    destruct (is_escape c); [eauto|discriminate].
  - destruct (is_hex c); [|discriminate]. destruct k; eauto.
Qed.

Lemma scanstring_go_ws (t : str) :
  forallb json_ws t = true -> forall m, scanstring_go m t = None.
Proof.
  induction t as [|c t IH]; intros Ht m; [reflexivity|].
  cbn in Ht. apply andb_true_iff in Ht as [Hc Ht].
  destruct (json_ws_facts c Hc)
    as (_ & _ & Hhex & Hesc & Hdq & Hbs & Hu & _ & _ & _ & _ & _ & _ & Hlow).
  cbn [scanstring_go]. destruct m.
  - rewrite Hdq, Hbs. destruct Hlow as [-> | ->]; [reflexivity|].
    cbn. apply IH. exact Ht.
  - rewrite Hu, Hesc. reflexivity.
  - rewrite Hhex. reflexivity.
Qed.

Lemma scanstring_go_tail (t : str) :
  forallb json_ws t = true ->
  forall (x : str) (m : smode) (r : str),
    scanstring_go m (x ++ t) = Some r ->
    exists r0, r = r0 ++ t /\ scanstring_go m x = Some r0.
Proof.
  intros Ht. induction x as [|c x IH]; intros m r H.
  - cbn [app] in H. rewrite scanstring_go_ws in H by exact Ht.
    discriminate.
  - cbn [app scanstring_go] in *. destruct m as [| |k].
    + destruct (Ascii.eqb c DQ).
      * injection H as <-. exists x. auto.
      * destruct (Ascii.eqb c BSLASH); [eauto|].
        destruct (code c <? 32)%N; [discriminate|eauto].
    + destruct (Ascii.eqb c "u"); [eauto|].
      destruct (is_escape c); [eauto|discriminate].
    + destruct (is_hex c); [|discriminate]. destruct k; eauto.
Qed.

Lemma skip_digits_split (s : str) :
  exists ds, s = ds ++ skip_digits s /\ forallb is_digit ds = true.
Proof.
  induction s as [|c s (ds & Hs & Hd)]; [exists []; auto|].
  cbn [skip_digits]. destruct (is_digit c) eqn:Hc.
  - exists (c :: ds). cbn. rewrite Hc, Hd, <- Hs. auto.
  - exists []. auto.
Qed.

Lemma skip_digits_ws (t : str) :
  forallb json_ws t = true -> skip_digits t = t.
Proof.
  destruct t as [|c t]; [reflexivity|]. cbn. intros H.
  apply andb_true_iff in H as [Hc _].
  destruct (json_ws_facts c Hc) as (_ & -> & _). reflexivity.
Qed.

Lemma skip_digits_app (x t : str) :
  forallb json_ws t = true -> skip_digits (x ++ t) = skip_digits x ++ t.
Proof.
  intros Ht. induction x as [|c x IH]; [apply skip_digits_ws; exact Ht|].
  cbn [skip_digits app]. destruct (is_digit c); [exact IH | reflexivity].
Qed.

Lemma match_frac_app (x t : str) :
  forallb json_ws t = true ->
  match_frac (x ++ t) = option_map (fun y => y ++ t) (match_frac x).
Proof.
  intros Ht. destruct x as [|c [|d x]]; unfold match_frac; cbn [app option_map].
  - destruct t as [|c [|d t]]; try reflexivity.
    cbn in Ht. apply andb_true_iff in Ht as [Hc _].
    destruct (json_ws_facts c Hc) as (_ & _ & _ & _ & _ & _ & _ & -> & _).
    reflexivity.
  - destruct t as [|d t]; [reflexivity|].
    cbn in Ht. apply andb_true_iff in Ht as [Hd _].
    destruct (json_ws_facts d Hd) as (_ & -> & _).
    rewrite andb_false_r. reflexivity.
  - destruct (Ascii.eqb c "." && is_digit d); [|reflexivity].
    cbn. rewrite skip_digits_app by exact Ht. reflexivity.
Qed.

Lemma match_exp_app (x t : str) :
  forallb json_ws t = true ->
  match_exp (x ++ t) = option_map (fun y => y ++ t) (match_exp x).
Proof.
  intros Ht.
  assert (Hd : forall t', forallb json_ws t' = true ->
             match t' with
             | d :: s3 => if is_digit d then Some (skip_digits s3) else None
             | [] => None
             end = @None str).
  { intros [|d t'] H; [reflexivity|]. cbn in H.
    apply andb_true_iff in H as [H _].
    destruct (json_ws_facts d H) as (_ & -> & _). reflexivity. }
  destruct x as [|e x]; unfold match_exp; cbn [app option_map].
  - destruct t as [|c t]; [reflexivity|].
    pose proof Ht as Ht'. cbn in Ht'. apply andb_true_iff in Ht' as [Hc _].
    destruct (json_ws_facts c Hc)
      as (_ & _ & _ & _ & _ & _ & _ & _ & -> & -> & _).
    reflexivity.
  - destruct (Ascii.eqb e "e" || Ascii.eqb e "E"); [|reflexivity].
    destruct x as [|sg x]; cbn [app].
    + destruct t as [|c t]; [reflexivity|].
      pose proof Ht as Ht'. cbn in Ht'.
      apply andb_true_iff in Ht' as [Hc Ht'].
      destruct (json_ws_facts c Hc)
        as (_ & Hdig & _ & _ & _ & _ & _ & _ & _ & _ & -> & -> & _).
      cbn [orb]. rewrite Hdig. reflexivity.
    + destruct (Ascii.eqb sg "-" || Ascii.eqb sg "+").
      * destruct x as [|d x]; cbn [app]; [rewrite (Hd t Ht); reflexivity|].
        destruct (is_digit d); [|reflexivity].
        cbn. rewrite skip_digits_app by exact Ht. reflexivity.
      * destruct (is_digit sg); [|reflexivity].
        cbn. rewrite skip_digits_app by exact Ht. reflexivity.
Qed.
End JsonLexical.

Section JsonNumbers.
Import Json.

Lemma ends_with_digit_app (v ds : str) :
  ends_with_digit v -> forallb is_digit ds = true ->
  ends_with_digit (v ++ ds).
Proof.
  intros Hv Hds. destruct (rev ds) as [|c rds] eqn:E.
  - apply (f_equal (@rev ascii)) in E. rewrite rev_involutive in E.
    subst ds. rewrite app_nil_r. exact Hv.
  - apply (f_equal (@rev ascii)) in E. rewrite rev_involutive in E.
    cbn in E. subst ds. exists (v ++ rev rds), c.
    rewrite app_assoc. split; [reflexivity|].
    rewrite forallb_app in Hds. apply andb_true_iff in Hds as [_ Hc].
    cbn in Hc. rewrite andb_true_r in Hc. exact Hc.
Qed.

Lemma ends_with_digit_cons (c : ascii) (v : str) :
  ends_with_digit v -> ends_with_digit (c :: v).
Proof. intros (v' & d & -> & Hd). exists (c :: v'), d. auto. Qed.

Lemma match_frac_suffix (s r : str) :
  match_frac s = Some r -> exists v, s = v ++ r /\ ends_with_digit v.
Proof.
  unfold match_frac. destruct s as [|c [|d s]]; try discriminate.
  destruct (Ascii.eqb c ".") eqn:Hc; [|discriminate].
  destruct (is_digit d) eqn:Hd; [|discriminate]. cbn [andb].
  intros H. injection H as <-.
  destruct (skip_digits_split s) as (ds & Hs & Hds).
  exists (c :: d :: ds). split; [cbn; rewrite <- Hs; reflexivity|].
  apply ends_with_digit_cons.
  apply (ends_with_digit_app [d] ds); [exists [], d; auto | exact Hds].
Qed.

Lemma match_exp_suffix (s r : str) :
  match_exp s = Some r -> exists v, s = v ++ r /\ ends_with_digit v.
Proof.
  unfold match_exp. destruct s as [|e s]; [discriminate|].
  destruct (Ascii.eqb e "e" || Ascii.eqb e "E"); [|discriminate].
  assert (Hrest : forall s'' r',
            match s'' with
            | d :: s3 => if is_digit d then Some (skip_digits s3) else None
            | [] => None
            end = Some r' ->
            exists v, s'' = v ++ r' /\ ends_with_digit v).
  { intros [|d s3] r'; [discriminate|].
    destruct (is_digit d) eqn:Hd; [|discriminate].
    intros H. injection H as <-.
    destruct (skip_digits_split s3) as (ds & Hs & Hds).
    exists (d :: ds). split; [cbn; rewrite <- Hs; reflexivity|].
    apply (ends_with_digit_app [d] ds); [exists [], d; auto | exact Hds]. }
  destruct s as [|sg s].
  - discriminate.
  - destruct (Ascii.eqb sg "-" || Ascii.eqb sg "+"); intros H.
    + destruct (Hrest _ _ H) as (v & -> & Hv).
      exists (e :: sg :: v). split; [reflexivity|].
      apply ends_with_digit_cons, ends_with_digit_cons. exact Hv.
    + destruct (Hrest (sg :: s) _ H) as (v & Hs & Hv).
      exists (e :: v). rewrite Hs. split; [reflexivity|].
      apply ends_with_digit_cons. exact Hv.
Qed.

Lemma match_unsigned_suffix (s r : str) :
  match_unsigned s = Some (Done r) ->
  exists v, s = v ++ r /\ ends_with_digit v.
Proof.
  unfold match_unsigned. destruct s as [|d s2]; [discriminate|].
  destruct (is_digit d) eqn:Hd; [|discriminate]. cbv zeta.
  set (s3 := if Ascii.eqb d "0" then s2 else skip_digits s2).
  assert (H3 : exists v, d :: s2 = v ++ s3 /\ ends_with_digit v).
  { subst s3. destruct (Ascii.eqb d "0").
    - exists [d]. split; [reflexivity | exists [], d; auto].
    - destruct (skip_digits_split s2) as (ds & Hs & Hds).
      exists (d :: ds). split; [cbn; rewrite <- Hs; reflexivity|].
      apply (ends_with_digit_app [d] ds); [exists [], d; auto | exact Hds]. }
  destruct H3 as (v3 & E3 & Hv3). rewrite E3.
  assert (Hext : forall v r', s3 = v ++ r' -> ends_with_digit v ->
                   exists v', v3 ++ s3 = v' ++ r' /\ ends_with_digit v').
  { intros v r' -> Hv. exists (v3 ++ v). rewrite app_assoc.
    split; [reflexivity|]. destruct Hv as (v' & c & -> & Hc).
    exists (v3 ++ v'), c. rewrite app_assoc. auto. }
  destruct (match_frac s3) as [s4|] eqn:Ef.
  - destruct (match_frac_suffix _ _ Ef) as (vf & Es3 & Hvf).
    destruct (match_exp s4) as [s5|] eqn:Ee; intros H; injection H as <-.
    + destruct (match_exp_suffix _ _ Ee) as (ve & -> & Hve).
      apply (Hext (vf ++ ve)); [rewrite <- app_assoc; exact Es3|].
      destruct Hve as (v' & c & -> & Hc). exists (vf ++ v'), c.
      rewrite app_assoc. auto.
    + apply (Hext vf); assumption.
  - destruct (match_exp s3) as [s5|] eqn:Ee.
    + intros H. injection H as <-.
      destruct (match_exp_suffix _ _ Ee) as (ve & Es3 & Hve).
      apply (Hext ve); assumption.
    + destruct (int_max_str_digits <? _); [discriminate|].
      intros H. injection H as <-. exists v3. auto.
Qed.

Lemma match_number_suffix (s r : str) :
  match_number s = Some (Done r) ->
  exists v, s = v ++ r /\ ends_with_digit v.
Proof.
  unfold match_number. destruct s as [|c s]; [discriminate|].
  destruct (Ascii.eqb c "-"); intros H.
  - destruct (match_unsigned_suffix _ _ H) as (v & -> & Hv).
    exists (c :: v). split; [reflexivity|].
    apply ends_with_digit_cons. exact Hv.
  - apply match_unsigned_suffix. exact H.
Qed.

Lemma match_unsigned_app (x t : str) :
  forallb json_ws t = true ->
  match_unsigned (x ++ t) = option_map (res_app t) (match_unsigned x).
Proof.
  intros Ht. destruct x as [|d x2].
  - cbn [app]. destruct t as [|c t]; [reflexivity|].
    cbn in Ht. apply andb_true_iff in Ht as [Hc _].
    destruct (json_ws_facts c Hc) as (_ & Hd & _).
    unfold match_unsigned. rewrite Hd. reflexivity.
  - unfold match_unsigned. cbn [app].
    destruct (is_digit d); [|reflexivity]. cbv zeta.
    set (s3 := if Ascii.eqb d "0" then x2 else skip_digits x2).
    assert (E3 : (if Ascii.eqb d "0" then x2 ++ t else skip_digits (x2 ++ t))
                 = s3 ++ t).
    { subst s3. destruct (Ascii.eqb d "0"); [reflexivity|].
      apply skip_digits_app. exact Ht. }
    rewrite E3.
    assert (En : length (d :: x2 ++ t) - length (s3 ++ t)
                 = length (d :: x2) - length s3).
    { cbn [length]. rewrite !length_app. lia. }
    rewrite En, !match_frac_app, !match_exp_app by exact Ht.
    destruct (match_frac s3) as [s4|]; cbn [option_map].
    + rewrite match_exp_app by exact Ht.
      destruct (match_exp s4); reflexivity.
    + destruct (match_exp s3); cbn [option_map]; [reflexivity|].
      destruct (int_max_str_digits <? _); reflexivity.
Qed.

Lemma match_number_app (x t : str) :
  forallb json_ws t = true ->
  match_number (x ++ t) = option_map (res_app t) (match_number x).
Proof.
  intros Ht. destruct x as [|c x].
  - cbn [app]. destruct t as [|c t]; [reflexivity|].
    pose proof Ht as Ht'. cbn in Ht'. apply andb_true_iff in Ht' as [Hc _].
    destruct (json_ws_facts c Hc)
      as (_ & Hd & _ & _ & _ & _ & _ & _ & _ & _ & Hm & _).
    unfold match_number. rewrite Hm. unfold match_unsigned.
    rewrite Hd. reflexivity.
  - unfold match_number. cbn [app].
    destruct (Ascii.eqb c "-").
    + apply match_unsigned_app. exact Ht.
    + apply (match_unsigned_app (c :: x) t Ht).
Qed.
End JsonNumbers.

Section JsonParser.
Import Json.

Lemma scan_once_eq (n dp : nat) (s : str) :
  scan_once (S n) dp s
  = match s with
    | [] => Bad
    | nextchar :: s' =>
        if Ascii.eqb nextchar DQ then
          match scanstring s' with Some r => Done r | None => Bad end
        else if Ascii.eqb nextchar "{" then
          match dp with
          | O => Deep
          | S dp' =>
              match skip_ws s' with
              | [] => Bad
              | c :: r =>
                  if Ascii.eqb c "}" then Done r
                  else if Ascii.eqb c DQ then JSONObject n dp' r
                  else Bad
              end
          end
        else if Ascii.eqb nextchar "[" then
          match dp with
          | O => Deep
          | S dp' =>
              match skip_ws s' with
              | [] => Bad
              | c :: r =>
                  if Ascii.eqb c "]" then Done r
                  else JSONArray n dp' (c :: r)
              end
          end
        else if startswith s (py "null") then Done (skipn 4 s)
        else if startswith s (py "true") then Done (skipn 4 s)
        else if startswith s (py "false") then Done (skipn 5 s)
        else
          match match_number s with
          | Some r => r
          | None =>
              if startswith s (py "NaN") then Done (skipn 3 s)
              else if startswith s (py "Infinity") then Done (skipn 8 s)
              else if startswith s (py "-Infinity") then Done (skipn 9 s)
              else Bad
          end
    end.
Proof. reflexivity. Qed.

Lemma JSONObject_eq (n dp : nat) (s : str) :
  JSONObject (S n) dp s
  = match scanstring s with
    | None => Bad
    | Some s1 =>
        match skip_ws s1 with
        | [] => Bad
        | c :: s2 =>
            if Ascii.eqb c ":" then
              match scan_once n dp (skip_ws s2) with
              | Done s3 =>
                  match skip_ws s3 with
                  | [] => Bad
                  | d :: s4 =>
                      if Ascii.eqb d "}" then Done s4
                      else if Ascii.eqb d "," then
                        match skip_ws s4 with
                        | [] => Bad
                        | q :: s5 =>
                            if Ascii.eqb q DQ then JSONObject n dp s5
                            else Bad
                        end
                      else Bad
                  end
              | e => e
              end
            else Bad
        end
    end.
Proof. reflexivity. Qed.

Lemma JSONArray_eq (n dp : nat) (s : str) :
  JSONArray (S n) dp s
  = match scan_once n dp s with
    | Done s1 =>
        match skip_ws s1 with
        | [] => Bad
        | c :: s2 =>
            if Ascii.eqb c "]" then Done s2
            else if Ascii.eqb c "," then JSONArray n dp (skip_ws s2)
            else Bad
        end
    | e => e
    end.
Proof. reflexivity. Qed.

Lemma skip_ws_suffix (s : str) : skip_ws s `suffix_of` s.
Proof. destruct (skip_ws_split s) as (w & Hs & _). exists w. exact Hs. Qed.

Lemma skip_ws_suffix_eq (s r : str) : skip_ws s = r -> r `suffix_of` s.
Proof. intros <-. apply skip_ws_suffix. Qed.

Lemma scanstring_suffix (s r : str) :
  scanstring s = Some r -> (DQ :: r) `suffix_of` s.
Proof. intros H. destruct (scanstring_go_suffix _ _ _ H) as (v & ->). by exists v. Qed.

Lemma startswith_split (p s : str) :
  startswith s p = true -> s = p ++ skipn (length p) s.
Proof.
  revert s. induction p as [|c p IH]; intros s H; [reflexivity|].
  destruct s as [|d s]; [discriminate|]. cbn in H.
  apply andb_true_iff in H as [Hc Hp]. apply Ascii.eqb_eq in Hc. subst d.
  cbn. f_equal. apply IH. exact Hp.
Qed.

Lemma literal_suffix (p v s : str) (c : ascii) (r : str) :
  p = v ++ [c] -> startswith s p = true -> r = skipn (length p) s ->
  (c :: r) `suffix_of` s.
Proof.
  intros Hp H ->. apply startswith_split in H. exists v.
  rewrite H at 1. rewrite Hp, <- app_assoc. reflexivity.
Qed.

Lemma is_digit_closes (c : ascii) : is_digit c = true -> closes c = true.
Proof.
  destruct c as [[] [] [] [] [] [] [] []]; vm_compute; congruence.
Qed.

Lemma number_suffix (s r : str) :
  match_number s = Some (Done r) ->
  exists c, (c :: r) `suffix_of` s /\ closes c = true.
Proof.
  intros H. destruct (match_number_suffix _ _ H) as (v & -> & v' & c & -> & Hc).
  exists c. split; [|apply is_digit_closes; exact Hc].
  exists v'. rewrite <- app_assoc. reflexivity.
Qed.

Ltac literal_case p v c :=
  exists c; split;
  [ apply (literal_suffix p v _ c _);
    [reflexivity | eassumption | reflexivity]
  | reflexivity ].

(** A value that was read ends just before the rest, with a character that
    is neither whitespace nor a backquote; an object ends with "}" and an
    array with "]". *)
Lemma scan_suffix (n : nat) :
  (forall dp s r, scan_once n dp s = Done r ->
               exists c, (c :: r) `suffix_of` s /\ closes c = true)
  /\ (forall dp s r, JSONObject n dp s = Done r -> ("}"%char :: r) `suffix_of` s)
  /\ (forall dp s r, JSONArray n dp s = Done r -> ("]"%char :: r) `suffix_of` s).
Proof.
  induction n as [|n (IHv & IHo & IHa)];
    [repeat split; intros dp s r H; discriminate H|].
  repeat split; intros dp s r H.
  - rewrite scan_once_eq in H. destruct s as [|nextchar s']; [discriminate|].
    destruct (Ascii.eqb nextchar DQ).
    { destruct (scanstring s') as [r0|] eqn:E; [|discriminate].
      injection H as <-. exists DQ. split; [|reflexivity].
      apply suffix_cons_r, scanstring_suffix. exact E. }
    destruct (Ascii.eqb nextchar "{").
    { destruct dp as [|dp']; [discriminate|].
      destruct (skip_ws s') as [|c r0] eqn:E; [discriminate|].
      apply skip_ws_suffix_eq in E.
      destruct (Ascii.eqb_spec c "}") as [->|_].
      - injection H as <-. exists "}"%char. split; [|reflexivity].
        apply suffix_cons_r. exact E.
      - destruct (Ascii.eqb c DQ); [|discriminate].
        apply IHo in H. exists "}"%char. split; [|reflexivity].
        apply suffix_cons_r. etrans; [exact H|].
        apply suffix_cons_l in E. exact E. }
    destruct (Ascii.eqb nextchar "[").
    { destruct dp as [|dp']; [discriminate|].
      destruct (skip_ws s') as [|c r0] eqn:E; [discriminate|].
      apply skip_ws_suffix_eq in E.
      destruct (Ascii.eqb_spec c "]") as [->|_].
      - injection H as <-. exists "]"%char. split; [|reflexivity].
        apply suffix_cons_r. exact E.
      - apply IHa in H. exists "]"%char. split; [|reflexivity].
        apply suffix_cons_r. etrans; [exact H|]. exact E. }
    destruct (startswith (nextchar :: s') (py "null")) eqn:E1.
    { injection H as <-. literal_case (py "null") (py "nul") "l"%char. }
    destruct (startswith (nextchar :: s') (py "true")) eqn:E2.
    { injection H as <-. literal_case (py "true") (py "tru") "e"%char. }
    destruct (startswith (nextchar :: s') (py "false")) eqn:E3.
    { injection H as <-. literal_case (py "false") (py "fals") "e"%char. }
    destruct (match_number (nextchar :: s')) as [r0|] eqn:En.
    { subst r0. apply number_suffix. exact En. }
    destruct (startswith (nextchar :: s') (py "NaN")) eqn:E4.
    { injection H as <-. literal_case (py "NaN") (py "Na") "N"%char. }
    destruct (startswith (nextchar :: s') (py "Infinity")) eqn:E5.
    { injection H as <-.
      literal_case (py "Infinity") (py "Infinit") "y"%char. }
    destruct (startswith (nextchar :: s') (py "-Infinity")) eqn:E6.
    { injection H as <-.
      literal_case (py "-Infinity") (py "-Infinit") "y"%char. }
    discriminate.
  - rewrite JSONObject_eq in H.
    destruct (scanstring s) as [s1|] eqn:E1; [|discriminate].
    apply scanstring_suffix, suffix_cons_l in E1.
    destruct (skip_ws s1) as [|c s2] eqn:E2; [discriminate|].
    apply skip_ws_suffix_eq, suffix_cons_l in E2.
    destruct (Ascii.eqb c ":"); [|discriminate].
    destruct (scan_once n dp (skip_ws s2)) as [s3| | |] eqn:E3; try discriminate.
    apply IHv in E3. destruct E3 as (c3 & E3 & _). apply suffix_cons_l in E3.
    pose proof (skip_ws_suffix s2) as E3'.
    assert (Hs3 : s3 `suffix_of` s).
    { etrans; [exact E3|]. etrans; [exact E3'|]. etrans; eassumption. }
    destruct (skip_ws s3) as [|d s4] eqn:E4; [discriminate|].
    apply skip_ws_suffix_eq in E4.
    destruct (Ascii.eqb_spec d "}") as [->|_].
    + injection H as <-. etrans; eassumption.
    + destruct (Ascii.eqb d ","); [|discriminate].
      destruct (skip_ws s4) as [|q s5] eqn:E5; [discriminate|].
      apply skip_ws_suffix_eq, suffix_cons_l in E5.
      destruct (Ascii.eqb q DQ); [|discriminate].
      apply IHo in H. etrans; [exact H|]. etrans; [exact E5|].
      apply suffix_cons_l in E4. etrans; eassumption.
  - rewrite JSONArray_eq in H.
    destruct (scan_once n dp s) as [s1| | |] eqn:E1; try discriminate.
    apply IHv in E1. destruct E1 as (c1 & E1 & _). apply suffix_cons_l in E1.
    destruct (skip_ws s1) as [|c s2] eqn:E2; [discriminate|].
    apply skip_ws_suffix_eq in E2.
    destruct (Ascii.eqb_spec c "]") as [->|_].
    + injection H as <-. etrans; eassumption.
    + destruct (Ascii.eqb c ","); [|discriminate].
      apply IHa in H. etrans; [exact H|].
      etrans; [apply skip_ws_suffix|].
      apply suffix_cons_l in E2. etrans; eassumption.
Qed.
End JsonParser.

Section JsonFuel.
Import Json.

(** More fuel does not change an answer that did not run out of it. *)
Lemma scan_stable (n : nat) :
  (forall dp s, scan_once n dp s <> Fuel ->
              scan_once (S n) dp s = scan_once n dp s)
  /\ (forall dp s, JSONObject n dp s <> Fuel ->
                 JSONObject (S n) dp s = JSONObject n dp s)
  /\ (forall dp s, JSONArray n dp s <> Fuel ->
                 JSONArray (S n) dp s = JSONArray n dp s).
Proof.
  induction n as [|n (IHv & IHo & IHa)];
    [repeat split; intros dp s H; exfalso; apply H; reflexivity|].
  repeat split; intros dp s H.
  - rewrite (scan_once_eq (S n)). rewrite scan_once_eq in H |- *.
    destruct s as [|nextchar s']; [reflexivity|].
    destruct (Ascii.eqb nextchar DQ); [reflexivity|].
    destruct (Ascii.eqb nextchar "{").
    { destruct dp as [|dp']; [reflexivity|].
      destruct (skip_ws s') as [|c r0]; [reflexivity|].
      destruct (Ascii.eqb c "}"); [reflexivity|].
      destruct (Ascii.eqb c DQ); [|reflexivity]. apply IHo. exact H. }
    destruct (Ascii.eqb nextchar "[").
    { destruct dp as [|dp']; [reflexivity|].
      destruct (skip_ws s') as [|c r0]; [reflexivity|].
      destruct (Ascii.eqb c "]"); [reflexivity|]. apply IHa. exact H. }
    reflexivity.
  - rewrite (JSONObject_eq (S n)). rewrite JSONObject_eq in H |- *.
    destruct (scanstring s) as [s1|]; [|reflexivity].
    destruct (skip_ws s1) as [|c s2]; [reflexivity|].
    destruct (Ascii.eqb c ":"); [|reflexivity].
    destruct (scan_once n dp (skip_ws s2)) as [s3| | |] eqn:E3.
    + rewrite (IHv dp (skip_ws s2)) by (rewrite E3; discriminate).
      rewrite E3.
      destruct (skip_ws s3) as [|d s4]; [reflexivity|].
      destruct (Ascii.eqb d "}"); [reflexivity|].
      destruct (Ascii.eqb d ","); [|reflexivity].
      destruct (skip_ws s4) as [|q s5]; [reflexivity|].
      destruct (Ascii.eqb q DQ); [|reflexivity]. apply IHo. exact H.
    + rewrite (IHv dp (skip_ws s2)) by (rewrite E3; discriminate).
      rewrite E3. reflexivity.
    + exfalso. apply H. reflexivity.
    + rewrite (IHv dp (skip_ws s2)) by (rewrite E3; discriminate).
      rewrite E3. reflexivity.
  - rewrite (JSONArray_eq (S n)). rewrite JSONArray_eq in H |- *.
    destruct (scan_once n dp s) as [s1| | |] eqn:E1.
    + rewrite (IHv dp s) by (rewrite E1; discriminate). rewrite E1.
      destruct (skip_ws s1) as [|c s2]; [reflexivity|].
      destruct (Ascii.eqb c "]"); [reflexivity|].
      destruct (Ascii.eqb c ","); [|reflexivity]. apply IHa. exact H.
    + rewrite (IHv dp s) by (rewrite E1; discriminate). rewrite E1.
      reflexivity.
    + exfalso. apply H. reflexivity.
    + rewrite (IHv dp s) by (rewrite E1; discriminate). rewrite E1.
      reflexivity.
Qed.

Lemma scan_once_more (n m dp : nat) (s : str) :
  n <= m -> scan_once n dp s <> Fuel -> scan_once m dp s = scan_once n dp s.
Proof.
  induction 1 as [|m Hle IH]; intros H; [reflexivity|].
  rewrite <- (IH H). apply scan_stable. rewrite (IH H). exact H.
Qed.

(** Twice the length of the text is enough fuel. *)
Lemma scan_enough (n : nat) :
  (forall dp s, 2 * length s + 1 <= n -> scan_once n dp s <> Fuel)
  /\ (forall dp s, 2 * length s + 1 <= n -> JSONObject n dp s <> Fuel)
  /\ (forall dp s, 2 * length s + 2 <= n -> JSONArray n dp s <> Fuel).
Proof.
  induction n as [|n (IHv & IHo & IHa)];
    [repeat split; intros dp s H; lia|].
  repeat split; intros dp s Hn.
  - rewrite scan_once_eq. destruct s as [|nextchar s']; [discriminate|].
    cbn [length] in Hn.
    destruct (Ascii.eqb nextchar DQ).
    { destruct (scanstring s'); discriminate. }
    destruct (Ascii.eqb nextchar "{").
    { destruct dp as [|dp']; [discriminate|].
      destruct (skip_ws s') as [|c r0] eqn:E; [discriminate|].
      apply skip_ws_suffix_eq, suffix_length in E. cbn [length] in E.
      destruct (Ascii.eqb c "}"); [discriminate|].
      destruct (Ascii.eqb c DQ); [|discriminate]. apply IHo. lia. }
    destruct (Ascii.eqb nextchar "[").
    { destruct dp as [|dp']; [discriminate|].
      destruct (skip_ws s') as [|c r0] eqn:E; [discriminate|].
      apply skip_ws_suffix_eq, suffix_length in E. cbn [length] in E.
      destruct (Ascii.eqb c "]"); [discriminate|].
      apply IHa. cbn [length]. lia. }
    destruct (startswith _ _); [discriminate|].
    destruct (startswith _ _); [discriminate|].
    destruct (startswith _ _); [discriminate|].
    destruct (match_number (nextchar :: s')) as [r0|] eqn:En.
    { unfold match_number in En.
      assert (Hu : forall x, match_unsigned x = Some r0 -> r0 <> Fuel).
      { intros x. unfold match_unsigned. destruct x; [discriminate|].
        destruct (is_digit _); [|discriminate]. cbv zeta.
        destruct (match_frac _); [intros [= <-]; discriminate|].
        destruct (match_exp _); [intros [= <-]; discriminate|].
        destruct (_ <? _); intros [= <-]; discriminate. }
      destruct (Ascii.eqb nextchar "-"); eapply Hu; exact En. }
    destruct (startswith _ _); [discriminate|].
    destruct (startswith _ _); [discriminate|].
    destruct (startswith _ _); discriminate.
  - rewrite JSONObject_eq.
    destruct (scanstring s) as [s1|] eqn:E1; [|discriminate].
    apply scanstring_suffix, suffix_length in E1. cbn [length] in E1.
    destruct (skip_ws s1) as [|c s2] eqn:E2; [discriminate|].
    apply skip_ws_suffix_eq, suffix_length in E2. cbn [length] in E2.
    destruct (Ascii.eqb c ":"); [|discriminate].
    pose proof (suffix_length _ _ (skip_ws_suffix s2)) as E2'.
    destruct (scan_once n dp (skip_ws s2)) as [s3| | |] eqn:E3.
    + destruct (proj1 (scan_suffix n) _ _ _ E3) as (c3 & E3' & _).
      apply suffix_length in E3'. cbn [length] in E3'.
      destruct (skip_ws s3) as [|d s4] eqn:E4; [discriminate|].
      apply skip_ws_suffix_eq, suffix_length in E4. cbn [length] in E4.
      destruct (Ascii.eqb d "}"); [discriminate|].
      destruct (Ascii.eqb d ","); [|discriminate].
      destruct (skip_ws s4) as [|q s5] eqn:E5; [discriminate|].
      apply skip_ws_suffix_eq, suffix_length in E5. cbn [length] in E5.
      destruct (Ascii.eqb q DQ); [|discriminate]. apply IHo. lia.
    + discriminate.
    + exfalso. apply (IHv dp (skip_ws s2)); [lia | exact E3].
    + discriminate.
  - rewrite JSONArray_eq.
    destruct (scan_once n dp s) as [s1| | |] eqn:E1.
    + destruct (proj1 (scan_suffix n) _ _ _ E1) as (c1 & E1' & _).
      apply suffix_length in E1'. cbn [length] in E1'.
      destruct (skip_ws s1) as [|c s2] eqn:E2; [discriminate|].
      apply skip_ws_suffix_eq, suffix_length in E2. cbn [length] in E2.
      destruct (Ascii.eqb c "]"); [discriminate|].
      destruct (Ascii.eqb c ","); [|discriminate].
      pose proof (suffix_length _ _ (skip_ws_suffix s2)) as E2'.
      apply IHa. lia.
    + discriminate.
    + exfalso. apply (IHv dp s); [lia | exact E1].
    + discriminate.
Qed.

(** [json_loads] never runs out of fuel. *)
Lemma scan_once_enough (dp : nat) (s : str) :
  decode (2 * length s + 2) dp s <> Fuel.
Proof.
  unfold decode.
  pose proof (suffix_length _ _ (skip_ws_suffix s)) as Hlen.
  destruct (scan_once _ dp (skip_ws s)) as [r| | |] eqn:E.
  - destruct (skip_ws r); discriminate.
  - discriminate.
  - exfalso. apply (proj1 (scan_enough _) dp (skip_ws s)) in E; [exact E|lia].
  - discriminate.
Qed.
End JsonFuel.

Section JsonTail.
Import Json.
Variable t : str.
Hypothesis Ht : forallb json_ws t = true.

Lemma skip_ws_app_cases (x : str) :
  (skip_ws x = [] /\ skip_ws (x ++ t) = [])
  \/ (exists c y, skip_ws x = c :: y /\ skip_ws (x ++ t) = c :: y ++ t).
Proof.
  rewrite (skip_ws_app x t Ht). destruct (skip_ws x) as [|c y]; [left|right];
    eauto.
Qed.

Lemma startswith_app_ws (p : str) :
  forallb (fun c => negb (json_ws c)) p = true ->
  forall x, startswith (x ++ t) p = startswith x p.
Proof.
  induction p as [|c p IH]; intros Hp x; [reflexivity|].
  cbn in Hp. apply andb_true_iff in Hp as [Hc Hp].
  destruct x as [|d x]; cbn [app startswith].
  - destruct t as [|d t']; [reflexivity|].
    pose proof Ht as Ht'. cbn in Ht'. apply andb_true_iff in Ht' as [Hd _].
    destruct (Ascii.eqb_spec c d) as [->|_]; [|reflexivity].
    rewrite Hd in Hc. discriminate.
  - rewrite IH by exact Hp. reflexivity.
Qed.

Lemma skipn_startswith_app (p x : str) :
  startswith x p = true ->
  skipn (length p) (x ++ t) = skipn (length p) x ++ t.
Proof.
  revert x. induction p as [|c p IH]; intros x H; [reflexivity|].
  destruct x as [|d x]; [discriminate|]. cbn in H.
  apply andb_true_iff in H as [_ H]. cbn. apply IH. exact H.
Qed.

Lemma scan_once_on_ws (n dp : nat) (r : str) : scan_once n dp t <> Done r.
Proof.
  destruct n as [|n]; [discriminate|]. rewrite scan_once_eq.
  destruct t as [|c t']; [discriminate|].
  pose proof Ht as Ht'. cbn in Ht'. apply andb_true_iff in Ht' as [Hc _].
  destruct c as [[] [] [] [] [] [] [] []]; try discriminate Hc;
    vm_compute; discriminate.
Qed.

Ltac literal_tail p x :=
  let E := fresh "E" in
  rewrite (startswith_app_ws p eq_refl);
  destruct (startswith x p) eqn:E;
  [ intros H; injection H as <-; exists (skipn (length p) x); split;
    [ exact (skipn_startswith_app p x E) | reflexivity ]
  | ].

(** Whitespace after the text does not take part in reading a value: the
    value is read in the same way without it. *)
Lemma scan_tail (n : nat) :
  (forall dp x r, scan_once n dp (x ++ t) = Done r ->
                  exists r0, r = r0 ++ t /\ scan_once n dp x = Done r0)
  /\ (forall dp x r, JSONObject n dp (x ++ t) = Done r ->
                     exists r0, r = r0 ++ t /\ JSONObject n dp x = Done r0)
  /\ (forall dp x r, JSONArray n dp (x ++ t) = Done r ->
                     exists r0, r = r0 ++ t /\ JSONArray n dp x = Done r0).
Proof.
  induction n as [|n (IHv & IHo & IHa)];
    [repeat split; intros dp x r H; discriminate H|].
  repeat split; intros dp x r.
  - destruct x as [|nextchar x'].
    { intros H. exfalso. exact (scan_once_on_ws _ _ _ H). }
    rewrite !scan_once_eq. cbn [app].
    destruct (Ascii.eqb nextchar DQ).
    { destruct (scanstring (x' ++ t)) as [r1|] eqn:E; [|discriminate].
      intros H. injection H as <-.
      destruct (scanstring_go_tail t Ht _ _ _ E) as (r0 & -> & E0).
      unfold scanstring. rewrite E0. eauto. }
    destruct (Ascii.eqb nextchar "{").
    { destruct dp as [|dp']; [discriminate|].
      destruct (skip_ws_app_cases x') as [[E0 E]|(c & y & E0 & E)];
        rewrite E, E0; [discriminate|].
      destruct (Ascii.eqb c "}"); [intros H; injection H as <-; eauto|].
      destruct (Ascii.eqb c DQ); [apply IHo | discriminate]. }
    destruct (Ascii.eqb nextchar "[").
    { destruct dp as [|dp']; [discriminate|].
      destruct (skip_ws_app_cases x') as [[E0 E]|(c & y & E0 & E)];
        rewrite E, E0; [discriminate|].
      destruct (Ascii.eqb c "]"); [intros H; injection H as <-; eauto|].
      apply (IHa _ (c :: y)). }
    change (nextchar :: x' ++ t) with ((nextchar :: x') ++ t).
    literal_tail (py "null") (nextchar :: x').
    literal_tail (py "true") (nextchar :: x').
    literal_tail (py "false") (nextchar :: x').
    rewrite (match_number_app _ t Ht).
    destruct (match_number (nextchar :: x')) as [r1|]; cbn [option_map].
    { destruct r1 as [r1| | |]; cbn [res_app]; try discriminate.
      intros H. injection H as <-. eauto. }
    literal_tail (py "NaN") (nextchar :: x').
    literal_tail (py "Infinity") (nextchar :: x').
    literal_tail (py "-Infinity") (nextchar :: x').
    discriminate.
  - rewrite !JSONObject_eq.
    destruct (scanstring (x ++ t)) as [s1|] eqn:E1; [|discriminate].
    destruct (scanstring_go_tail t Ht _ _ _ E1) as (s1' & -> & E1').
    unfold scanstring. rewrite E1'.
    destruct (skip_ws_app_cases s1') as [[E0 E]|(c & s2 & E0 & E)];
      rewrite E, E0; [discriminate|].
    destruct (Ascii.eqb c ":"); [|discriminate].
    destruct (skip_ws_app_cases s2) as [[E0' E']|(c' & y & E0' & E')];
      rewrite E', E0'.
    { intros H. exfalso.
      destruct (scan_once n dp []) as [s3| | |] eqn:E3; try discriminate.
      destruct n; [discriminate|]. rewrite scan_once_eq in E3.
      discriminate. }
    destruct (scan_once n dp (c' :: y ++ t)) as [s3| | |] eqn:E3; try discriminate.
    destruct (IHv _ (c' :: y) _ E3) as (s3' & -> & E3'). rewrite E3'.
    destruct (skip_ws_app_cases s3') as [[E0'' E'']|(d & s4 & E0'' & E'')];
      rewrite E'', E0''; [discriminate|].
    destruct (Ascii.eqb d "}"); [intros H; injection H as <-; eauto|].
    destruct (Ascii.eqb d ","); [|discriminate].
    destruct (skip_ws_app_cases s4) as [[E05 E5]|(q & s5 & E05 & E5)];
      rewrite E5, E05; [discriminate|].
    destruct (Ascii.eqb q DQ); [apply IHo | discriminate].
  - rewrite !JSONArray_eq.
    destruct (scan_once n dp (x ++ t)) as [s1| | |] eqn:E1; try discriminate.
    destruct (IHv _ _ _ E1) as (s1' & -> & E1'). rewrite E1'.
    destruct (skip_ws_app_cases s1') as [[E0 E]|(c & s2 & E0 & E)];
      rewrite E, E0; [discriminate|].
    destruct (Ascii.eqb c "]"); [intros H; injection H as <-; eauto|].
    destruct (Ascii.eqb c ","); [|discriminate].
    destruct (skip_ws_app_cases s2) as [[E0' E']|(c' & y & E0' & E')];
      rewrite E', E0'.
    { intros H. exfalso. destruct n; [discriminate|].
      rewrite JSONArray_eq in H. destruct n; [discriminate|].
      rewrite scan_once_eq in H. discriminate. }
    apply (IHa _ (c' :: y)).
Qed.
End JsonTail.

(** ** Facts about [strip], [removeprefix] and [removesuffix] *)

Section Strip.

Lemma lstrip_spaces (w s : str) :
  forallb isspace w = true -> lstrip (w ++ s) = lstrip s.
Proof.
  induction w as [|c w IH]; intros H; [reflexivity|].
  cbn in H. apply andb_true_iff in H as [Hc Hw]. cbn. rewrite Hc. auto.
Qed.

Lemma lstrip_head (c : ascii) (s : str) :
  isspace c = false -> lstrip (c :: s) = c :: s.
Proof. intros H. cbn. rewrite H. reflexivity. Qed.

Lemma rstrip_spaces (s w : str) :
  forallb isspace w = true -> rstrip (s ++ w) = rstrip s.
Proof.
  intros H. unfold rstrip. rewrite rev_app_distr, lstrip_spaces;
    [reflexivity|].
  rewrite forallb_forall in *. intros c Hc. apply H, in_rev. exact Hc.
Qed.

Lemma rstrip_last (v : str) (c : ascii) :
  isspace c = false -> rstrip (v ++ [c]) = v ++ [c].
Proof.
  intros H. unfold rstrip. rewrite rev_app_distr. cbn [rev app].
  rewrite lstrip_head by exact H. cbn [rev]. rewrite rev_involutive.
  reflexivity.
Qed.

(** A text that starts and ends with characters that are no whitespace is
    what [strip] leaves of it, whatever whitespace stands around it. *)
Lemma strip_sandwich (w1 w2 x' v : str) (d c : ascii) :
  forallb isspace w1 = true -> forallb isspace w2 = true ->
  isspace d = false -> isspace c = false ->
  d :: x' = v ++ [c] ->
  strip (w1 ++ (d :: x') ++ w2) = d :: x'.
Proof.
  intros H1 H2 Hd Hc E. unfold strip.
  rewrite lstrip_spaces by exact H1. cbn [app].
  rewrite lstrip_head by exact Hd.
  change (d :: x' ++ w2) with ((d :: x') ++ w2).
  rewrite rstrip_spaces by exact H2. rewrite E. apply rstrip_last. exact Hc.
Qed.

Lemma removeprefix_none (d : ascii) (x p : str) (q : ascii) :
  Ascii.eqb q d = false -> removeprefix (d :: x) (q :: p) = d :: x.
Proof. intros H. unfold removeprefix. cbn. rewrite H. reflexivity. Qed.

Lemma startswith_self (p s : str) : startswith (p ++ s) p = true.
Proof.
  induction p as [|c p IH]; [reflexivity|]. cbn.
  rewrite Ascii.eqb_refl. exact IH.
Qed.

Lemma removeprefix_app (p s : str) : removeprefix (p ++ s) p = s.
Proof.
  unfold removeprefix. rewrite startswith_self.
  rewrite skipn_app, skipn_all, Nat.sub_diag. reflexivity.
Qed.

Lemma removesuffix_none (v p : str) (c q : ascii) :
  Ascii.eqb q c = false -> removesuffix (v ++ [c]) (p ++ [q]) = v ++ [c].
Proof.
  intros H. unfold removesuffix, endswith. rewrite !rev_app_distr.
  cbn. rewrite H. reflexivity.
Qed.

Lemma removesuffix_app (s p : str) :
  p <> [] -> removesuffix (s ++ p) p = s.
Proof.
  intros Hp. unfold removesuffix, endswith.
  rewrite rev_app_distr, startswith_self.
  destruct p as [|c p]; [contradiction|]. cbn [eqb_str negb andb].
  rewrite length_app, Nat.add_sub, firstn_app, firstn_all, Nat.sub_diag.
  cbn. apply app_nil_r.
Qed.
End Strip.

Section JsonShape.
Import Json.

Lemma scan_once_head (n dp : nat) (c : ascii) (s r : str) :
  scan_once n dp (c :: s) = Done r -> closes c = true.
Proof.
  destruct n as [|n]; [discriminate|]. rewrite scan_once_eq.
  destruct c as [[] [] [] [] [] [] [] []]; intros H; try reflexivity;
    exfalso; vm_compute in H; discriminate H.
Qed.

Lemma closes_facts (c : ascii) :
  closes c = true ->
  isspace c = false /\ json_ws c = false /\ Ascii.eqb "`" c = false.
Proof.
  destruct c as [[] [] [] [] [] [] [] []]; vm_compute; intros H;
    try discriminate H; repeat split.
Qed.

Lemma json_ws_isspace (w : str) :
  forallb json_ws w = true -> forallb isspace w = true.
Proof.
  induction w as [|c w IH]; [reflexivity|]. cbn. intros H.
  apply andb_true_iff in H as [Hc Hw].
  destruct (json_ws_facts c Hc) as (-> & _). cbn. auto.
Qed.

(** A text that [json.loads] accepts is a value between whitespace; the
    value alone is accepted too, and it starts and ends with characters
    that are neither whitespace nor backquotes. *)
Lemma json_loads_shape (dp : nat) (s : str) :
  json_loads dp s = Ok tt ->
  exists w d x' r v c,
    s = w ++ (d :: x') ++ r
    /\ d :: x' = v ++ [c]
    /\ forallb isspace w = true /\ forallb isspace r = true
    /\ closes d = true /\ closes c = true
    /\ json_loads dp (d :: x') = Ok tt.
Proof.
  unfold json_loads at 1. unfold decode.
  set (n := 2 * length s + 2).
  destruct (scan_once n dp (skip_ws s)) as [r| | |] eqn:E; try discriminate.
  destruct (skip_ws r) eqn:Er; [|discriminate]. intros _.
  apply skip_ws_nil in Er.
  destruct (proj1 (scan_suffix n) _ _ _ E) as (c & (v & Ev) & Hc).
  destruct (skip_ws_split s) as (w & Hs & Hw).
  assert (Ex : skip_ws s = (v ++ [c]) ++ r).
  { rewrite Ev, <- app_assoc. reflexivity. }
  rewrite Ex in E.
  destruct (proj1 (scan_tail r Er n) _ _ _ E) as (r0 & Er0 & E0).
  assert (r0 = []) as ->.
  { apply (app_inv_tail r). exact (eq_sym Er0). }
  destruct (v ++ [c]) as [|d x'] eqn:Evc.
  { destruct v; discriminate. }
  pose proof (scan_once_head _ _ _ _ _ E0) as Hd.
  destruct (closes_facts d Hd) as (Hd1 & Hd2 & _).
  exists w, d, x', r, v, c. rewrite <- Ex.
  repeat split; auto using json_ws_isspace.
  unfold json_loads, decode. cbn [skip_ws]. rewrite Hd2.
  assert (Hlen : 2 * length (d :: x') + 2 <= n).
  { subst n. rewrite Hs, Ex, !length_app. lia. }
  assert (Henough : scan_once (2 * length (d :: x') + 2) dp (d :: x')
                    <> Fuel).
  { apply (proj1 (scan_enough _)). lia. }
  rewrite (scan_once_more _ _ _ _ Hlen Henough) in E0.
  rewrite E0. reflexivity.
Qed.

(** What [json.loads] accepts, it accepts without the whitespace around
    it. *)
Lemma json_loads_strip (dp : nat) (s : str) :
  json_loads dp s = Ok tt -> json_loads dp (strip s) = Ok tt.
Proof.
  intros H.
  destruct (json_loads_shape dp s H)
    as (w & d & x' & r & v & c & -> & Ev & Hw & Hr & Hd & Hc & Hx).
  destruct (closes_facts d Hd) as (Hd1 & _).
  destruct (closes_facts c Hc) as (Hc1 & _).
  rewrite (strip_sandwich w r x' v d c); assumption.
Qed.
End JsonShape.

Section JsonChecker.
Import Json.

(** The verdict of the json check for an answer of [json.loads] *)
Lemma json_check_eq (depth : nat) (arg_value : str) (self : BaseChecker) :
  JsonFormatChecker.check_following depth arg_value self
  = (match json_loads depth (JsonFormatChecker.fenced_value arg_value) with
     | Ok _ => Ok true
     | Raise ValueError => Ok false
     | Raise e => Raise e
     end, self).
Proof.
  unfold JsonFormatChecker.check_following.
  destruct (json_loads _ _) as [u|e]; [reflexivity|]. now destruct e.
Qed.

(** C5 as stated does not hold.  The object "{}" is valid JSON, and in a
    fence tagged "jSoN" it is rejected.  An array of one integer of 4301
    digits is valid JSON, [json.loads] refuses it, and in a fence tagged
    "json" it is rejected.  An array nested 1001 deep is valid JSON, and
    with the 1000 levels of the default recursion limit the check of the
    fenced text raises [RecursionError]. *)
Lemma C5_counterexample :
  json_loads default_recursion_limit (py "{}") = Ok tt
  /\ lower (py "jSoN") = py "json"
  /\ JsonFormatChecker.check_following default_recursion_limit
       (fenced (py "jSoN") [LF] (py "{}") [LF]) json_self
     = (Ok false, json_self)
  /\ JsonFormatChecker.check_following default_recursion_limit
       (fenced (py "json") [LF] long_integer_array [LF]) json_self
     = (Ok false, json_self)
  /\ JsonFormatChecker.check_following default_recursion_limit
       (fenced (py "json") [LF] (nested_arrays 1001) [LF]) json_self
     = (Raise RecursionError, json_self).
Proof. repeat split; vm_compute; reflexivity. Qed.

Lemma removeprefix_backquote (h : ascii) (tl p : str) :
  Ascii.eqb "`" h = false -> startswith p (py "`") = true ->
  removeprefix (h :: tl) p = h :: tl.
Proof.
  intros Hh Hp. destruct p as [|q p]; [discriminate|].
  change (startswith (q :: p) (py "`")) with (Ascii.eqb "`" q && true) in Hp.
  rewrite andb_true_r in Hp. apply Ascii.eqb_eq in Hp. subst q.
  apply removeprefix_none. exact Hh.
Qed.

(** The text between the fence markers, once the opening marker and its
    tag are gone: the other prefixes are not there, the closing marker is
    removed, and [strip] leaves the value. *)
Lemma fenced_value_inner (mid x' v : str) (d c : ascii) (w1 w2 : str) :
  mid = w1 ++ (d :: x') ++ w2 ->
  forallb isspace w1 = true -> forallb isspace w2 = true ->
  closes d = true -> closes c = true -> d :: x' = v ++ [c] ->
  (forall p, startswith p (py "`") = true ->
             removeprefix (mid ++ JsonFormatChecker.FENCE) p
             = mid ++ JsonFormatChecker.FENCE)
  /\ strip (removesuffix (mid ++ JsonFormatChecker.FENCE)
              JsonFormatChecker.FENCE)
     = d :: x'.
Proof.
  intros -> H1 H2 Hd Hc Ev.
  destruct (closes_facts d Hd) as (Hd1 & _ & Hd3).
  destruct (closes_facts c Hc) as (Hc1 & _).
  split.
  - intros p Hp.
    destruct w1 as [|h w1]; cbn [app].
    + apply removeprefix_backquote; assumption.
    + apply removeprefix_backquote; [|exact Hp].
      cbn in H1. apply andb_true_iff in H1 as [Hh _].
      destruct h as [[] [] [] [] [] [] [] []]; try reflexivity;
        vm_compute in Hh; discriminate Hh.
  - rewrite removesuffix_app by discriminate.
    apply (strip_sandwich w1 w2 x' v d c); assumption.
Qed.

Lemma strip_fenced (tag mid : str) :
  strip (JsonFormatChecker.FENCE ++ tag ++ mid ++ JsonFormatChecker.FENCE)
  = JsonFormatChecker.FENCE ++ tag ++ mid ++ JsonFormatChecker.FENCE.
Proof.
  unfold strip.
  change (JsonFormatChecker.FENCE ++ tag ++ mid ++ JsonFormatChecker.FENCE)
    with ("`"%char :: (py "``" ++ tag ++ mid ++ JsonFormatChecker.FENCE)).
  rewrite (lstrip_head "`" _ eq_refl).
  assert (E : "`"%char :: (py "``" ++ tag ++ mid ++ JsonFormatChecker.FENCE)
              = (py "```" ++ tag ++ mid ++ py "``") ++ ["`"%char]).
  { rewrite <- !app_assoc. reflexivity. }
  rewrite E. apply rstrip_last. reflexivity.
Qed.

(** C5 (amended): a text that [json.loads] parses with the recursion it
    has left (an object, an array or another value), with any whitespace
    around it, between a fence opened with the tag json, Json or JSON and
    the closing fence, is accepted by the json-validity check; the
    truncated object is rejected whenever the interpreter has a level of
    recursion left. *)
Theorem C5_json_fence_three_tags :
  (forall (depth : nat) (tag ws1 body ws2 : str) (self : BaseChecker),
      In tag JSON_TAGS ->
      forallb isspace ws1 = true -> forallb isspace ws2 = true ->
      json_loads depth body = Ok tt ->
      JsonFormatChecker.check_following depth (fenced tag ws1 body ws2) self
      = (Ok true, self))
  /\ (forall (depth : nat) (self : BaseChecker),
        JsonFormatChecker.check_following (S depth) truncated_json self
        = (Ok false, self)).
Proof.
  split.
  - intros depth tag ws1 body ws2 self Htag Hws1 Hws2 Hbody.
    rewrite json_check_eq.
    destruct (json_loads_shape depth body Hbody)
      as (w & d & x' & r & v & c & -> & Ev & Hw & Hr & Hd & Hc & Hx).
    enough (Hvalue : JsonFormatChecker.fenced_value
                       (fenced tag ws1 (w ++ (d :: x') ++ r) ws2)
                     = d :: x') by (now rewrite Hvalue, Hx).
    set (mid := (ws1 ++ w) ++ (d :: x') ++ (r ++ ws2)).
    assert (Hmid : ws1 ++ (w ++ (d :: x') ++ r) ++ ws2 = mid).
    { subst mid. rewrite <- !app_assoc. reflexivity. }
    assert (H1 : forallb isspace (ws1 ++ w) = true).
    { rewrite forallb_app, Hws1, Hw. reflexivity. }
    assert (H2 : forallb isspace (r ++ ws2) = true).
    { rewrite forallb_app, Hws2, Hr. reflexivity. }
    destruct (fenced_value_inner mid x' v d c _ _ eq_refl H1 H2 Hd Hc Ev)
      as [Hpre Hinner].
    unfold JsonFormatChecker.fenced_value, fenced.
    replace (ws1 ++ (w ++ (d :: x') ++ r) ++ ws2 ++ JsonFormatChecker.FENCE)
      with (mid ++ JsonFormatChecker.FENCE)
      by (rewrite <- Hmid, <- !app_assoc; reflexivity).
    rewrite strip_fenced.
    destruct Htag as [<- | [<- | [<- | []]]].
    + change (JsonFormatChecker.FENCE ++ py "json" ++ mid
              ++ JsonFormatChecker.FENCE)
        with (py "```json" ++ mid ++ JsonFormatChecker.FENCE).
      rewrite removeprefix_app, ?(Hpre (py "```Json") eq_refl),
        ?(Hpre (py "```JSON") eq_refl),
        ?(Hpre JsonFormatChecker.FENCE eq_refl).
      exact Hinner.
    + change (removeprefix
                (JsonFormatChecker.FENCE ++ py "Json" ++ mid
                 ++ JsonFormatChecker.FENCE) (py "```json"))
        with (py "```Json" ++ mid ++ JsonFormatChecker.FENCE).
      rewrite removeprefix_app, ?(Hpre (py "```Json") eq_refl),
        ?(Hpre (py "```JSON") eq_refl),
        ?(Hpre JsonFormatChecker.FENCE eq_refl).
      exact Hinner.
    + change (removeprefix
                (removeprefix
                   (JsonFormatChecker.FENCE ++ py "JSON" ++ mid
                    ++ JsonFormatChecker.FENCE) (py "```json"))
                (py "```Json"))
        with (py "```JSON" ++ mid ++ JsonFormatChecker.FENCE).
      rewrite removeprefix_app, ?(Hpre (py "```Json") eq_refl),
        ?(Hpre (py "```JSON") eq_refl),
        ?(Hpre JsonFormatChecker.FENCE eq_refl).
      exact Hinner.
  - intros depth self. rewrite json_check_eq. reflexivity.
Qed.

Lemma C5_json_fence_three_tags_witness :
  JsonFormatChecker.check_following default_recursion_limit
    (fenced (py "JSON") [LF] object_a1 [LF]) json_self
  = (Ok true, json_self).
Proof.
  apply (proj1 C5_json_fence_three_tags default_recursion_limit (py "JSON")
           [LF] object_a1 [LF]).
  - right. right. left. reflexivity.
  - reflexivity.
  - reflexivity.
  - vm_compute. reflexivity.
Defined.
End JsonChecker.

Section JsonAnyValue.
Import Json.

Lemma strip_trimmed (x' v : str) (d c : ascii) :
  isspace d = false -> isspace c = false -> d :: x' = v ++ [c] ->
  strip (d :: x') = d :: x'.
Proof.
  intros Hd Hc E. unfold strip. rewrite lstrip_head by exact Hd.
  rewrite E. apply rstrip_last. exact Hc.
Qed.

(** The code-fence handling leaves a text alone that [json.loads]
    accepts as it is: only the whitespace around it goes. *)
Lemma fenced_value_plain (dp : nat) (s : str) :
  json_loads dp s = Ok tt ->
  json_loads dp (JsonFormatChecker.fenced_value s) = Ok tt.
Proof.
  intros H.
  destruct (json_loads_shape dp s H)
    as (w & d & x' & r & v & c & -> & Ev & Hw & Hr & Hd & Hc & Hx).
  destruct (closes_facts d Hd) as (Hd1 & _ & Hd3).
  destruct (closes_facts c Hc) as (Hc1 & _ & Hc3).
  unfold JsonFormatChecker.fenced_value.
  rewrite (strip_sandwich w r x' v d c) by assumption.
  rewrite (removeprefix_backquote d x' (py "```json") Hd3 eq_refl).
  rewrite (removeprefix_backquote d x' (py "```Json") Hd3 eq_refl).
  rewrite (removeprefix_backquote d x' (py "```JSON") Hd3 eq_refl).
  rewrite (removeprefix_backquote d x' JsonFormatChecker.FENCE Hd3 eq_refl).
  rewrite Ev.
  change JsonFormatChecker.FENCE with (py "``" ++ ["`"%char]).
  rewrite (removesuffix_none v (py "``") c "`"%char Hc3).
  rewrite <- Ev. rewrite (strip_trimmed x' v d c) by assumption.
  exact Hx.
Qed.

(** C10: the json-validity check accepts every text that [json.loads]
    parses, whatever the kind of the value: also the number 123, null and
    a quoted string, which are no JSON objects and need no recursion,
    although the description of the checker asks for a valid JSON
    object. *)
Theorem C10_json_check_accepts_any_value :
  (forall (depth : nat) (s : str) (self : BaseChecker),
      json_loads depth s = Ok tt ->
      JsonFormatChecker.check_following depth s self = (Ok true, self))
  /\ (forall depth : nat,
        JsonFormatChecker.check_following depth (py "123") json_self
        = (Ok true, json_self))
  /\ (forall depth : nat,
        JsonFormatChecker.check_following depth (py "null") json_self
        = (Ok true, json_self))
  /\ (forall depth : nat,
        JsonFormatChecker.check_following depth quoted_abc json_self
        = (Ok true, json_self))
  /\ (exists text,
        JsonFormatChecker.build_description json_self = (Ok text, json_self)
        /\ contains text (py "must be a valid JSON object") = true).
Proof.
  split; [|split; [|split; [|split]]].
  - intros depth s self H. rewrite json_check_eq.
    rewrite (fenced_value_plain depth s H). reflexivity.
  - intros depth. reflexivity.
  - intros depth. reflexivity.
  - intros depth. reflexivity.
  - eexists. split; [reflexivity|]. vm_compute. reflexivity.
Qed.

Lemma C10_json_check_accepts_any_value_witness :
  JsonFormatChecker.check_following 0 (py " 123 ") json_self
  = (Ok true, json_self).
Proof.
  apply (proj1 C10_json_check_accepts_any_value 0 (py " 123 ")).
  vm_compute. reflexivity.
Defined.
End JsonAnyValue.
